(** * Image-ingestion pipeline: validation, compression, upload control

    A shallow embedding of
      - [src/helpers/compress.ts]        (module [Compress]),
      - [src/hooks/use-image-upload.ts]  (modules [Validation], [UploadHook]),
      - [src/components/file-upload.tsx] (module [FileUploadControl]),
    followed by the properties established about them.

    Conventions.  A JavaScript [number] that holds a byte count, a pixel
    count, a session counter or a whole-megabyte limit is an [N]; the
    counter's saturation at 2^53 is outside the model.  A promise is
    represented by the value it settles to ([Settled]); a function that
    awaits is split at its suspension points. *)

From Stdlib Require Import NArith List String Ascii Bool Lia QArith.
From Stdlib Require Import DecimalString.
Import ListNotations.

Open Scope string_scope.
Open Scope N_scope.

(** ** Values shared by all modules *)

(** A browser [File]: the attributes the pipeline reads, plus an opaque
    identifier of its bytes. *)
Record File := mkFile {
  fname : string;
  ftype : string;
  fsize : N;
  fbytes : N
}.

(** What a [throw] carries: an [Error] instance with its message, or any
    other value. *)
Inductive Thrown :=
| ErrorObject (message : string)
| NonError (shown : string).

(** The state a promise of an [A] settles to. *)
Inductive Settled (A : Type) :=
| Fulfilled (a : A)
| Rejected (e : Thrown).
Arguments Fulfilled {A} a.
Arguments Rejected {A} e.

(** An optional property of an options object: missing, present but
    [undefined], or present with a value.  Object spread copies the last
    two and lets the first fall through to the defaults. *)
Inductive Prop_ (A : Type) :=
| Absent
| Undefined
| Given (a : A).
Arguments Absent {A}.
Arguments Undefined {A}.
Arguments Given {A} a.

Definition spread {A} (base over : Prop_ A) : Prop_ A :=
  match over with
  | Absent => base
  | _ => over
  end.

(** Truthiness of an optional number: [undefined] and [0] are falsy. *)
Definition truthyN (p : Prop_ N) : bool :=
  match p with
  | Given n => negb (n =? 0)
  | _ => false
  end.

(** Template-literal rendering of a non-negative integer. *)
Definition showN (n : N) : string := NilEmpty.string_of_uint (N.to_uint n).

(** Object URLs handed out by [URL.createObjectURL]: [issued] counts the
    handles created so far (and names the next one), [live] lists those
    not yet revoked, [released] counts effective revocations. *)
Record ObjectURLs := mkURLs {
  issued : N;
  live : list N;
  released : N
}.

Definition noURLs : ObjectURLs := mkURLs 0 [] 0.

Definition createObjectURL (u : ObjectURLs) : N * ObjectURLs :=
  (issued u, mkURLs (issued u + 1) (issued u :: live u) (released u)).

Definition revokeObjectURL (h : N) (u : ObjectURLs) : ObjectURLs :=
  if existsb (N.eqb h) (live u)
  then mkURLs (issued u) (filter (fun x => negb (x =? h)) (live u))
              (released u + 1)
  else u.

(** ** [src/helpers/compress.ts] *)
Module Compress.

Inductive OutputType := Jpeg | Png | Webp.

Definition mimeOf (t : OutputType) : string :=
  match t with
  | Jpeg => "image/jpeg"
  | Png => "image/png"
  | Webp => "image/webp"
  end.

(** [CompressOptions] without [onProgress], which the hook model delivers
    as events of its own. *)
Record CompressOptions := mkOptions {
  maxWidthOrHeight : option N;
  maxSizeMB : option Q;
  useWebWorker : option bool;
  preserveExif : option bool;
  fileType : option OutputType;
  initialQuality : option Q
}.

Definition noOptions : CompressOptions :=
  mkOptions None None None None None None.

(** The options object the encoder receives:
    [{ ...DEFAULT_OPTIONS, ...compressionOptions }]. *)
Record EncoderOptions := mkEncoderOptions {
  encMaxWidthOrHeight : N;
  encMaxSizeMB : Q;
  encUseWebWorker : bool;
  encPreserveExif : bool;
  encFileType : option OutputType;
  encInitialQuality : Q
}.

Definition orDefault {A} (d : A) (o : option A) : A :=
  match o with
  | Some a => a
  | None => d
  end.

Definition mergedOptions (o : CompressOptions) : EncoderOptions :=
  mkEncoderOptions
    (orDefault 1920 (maxWidthOrHeight o))
    (orDefault (1 # 1)%Q (maxSizeMB o))
    (orDefault true (useWebWorker o))
    (orDefault false (preserveExif o))
    (fileType o)
    (orDefault (8 # 10)%Q (initialQuality o)).

(** [compressionRatio] is a floating-point quotient in the source; it is
    kept symbolic: the literal [1], or the quotient of two byte counts. *)
Inductive Ratio :=
| RatioOne
| RatioOf (compressed original : N).

Record CompressResult := mkResult {
  file : File;
  originalSize : N;
  compressedSize : N;
  compressionRatio : Ratio;
  wasSkipped : bool
}.

(** [options.fileType && options.fileType !== file.type] *)
Definition isFormatForced (f : File) (o : CompressOptions) : bool :=
  match fileType o with
  | Some t => negb (mimeOf t =? ftype f)%string
  | None => false
  end.

Section WithEncoder.

(** The [browser-image-compression] encoder. *)
Variable imageCompression : File -> EncoderOptions -> Settled File.

Definition compressImage (f : File) (o : CompressOptions)
  : Settled CompressResult :=
  let originalSize := fsize f in
  match imageCompression f (mergedOptions o) with
  | Fulfilled compressedFile =>
      let compressedSize := fsize compressedFile in
      let isInefficient := originalSize <=? compressedSize in
      if isInefficient && negb (isFormatForced f o)
      then Fulfilled (mkResult f originalSize originalSize RatioOne true)
      else Fulfilled (mkResult compressedFile originalSize compressedSize
                        (RatioOf compressedSize originalSize) false)
  | Rejected error =>
      let message :=
        match error with
        | ErrorObject m => m
        | NonError _ => "Unknown compression error"
        end in
      Rejected (ErrorObject ("Image compression failed: " ++ message))
  end.

End WithEncoder.

(** [file.type.startsWith("image/")] *)
Definition isImageFile (f : File) : bool := String.prefix "image/" (ftype f).

Definition units : list string := ["B"; "KB"; "MB"; "GB"].

(** [Number.parseFloat(x.toFixed(1))] printed by a template literal, from
    the number of tenths that [toFixed(1)] rounds to: a zero decimal is
    dropped. *)
Definition showTenths (t : N) : string :=
  if t mod 10 =? 0 then showN (t / 10)
  else showN (t / 10) ++ "." ++ showN (t mod 10).

(** [formatFileSize].  [Math.floor(Math.log(bytes) / Math.log(1024))] is
    taken as the exact integer logarithm, [N.log2 bytes / 10];
    [toFixed(1)] rounds the exact quotient to the nearest tenth, upwards
    on a tie; an index past the table prints as [undefined]. *)
Definition formatFileSize (bytes : N) : string :=
  if bytes =? 0 then "0 B"
  else
    let i := N.log2 bytes / 10 in
    let d := 1024 ^ i in
    let tenths := (20 * bytes + d) / (2 * d) in
    showTenths tenths ++ " " ++ nth (N.to_nat i) units "undefined".

(** The two decoders [getImageDimensions] can use.  [createImageBitmap]
    may be missing from the environment. *)
Record Decoders := mkDecoders {
  createImageBitmap : option (File -> Settled (N * N));
  loadImageElement : File -> option (N * N)
}.

(** [getImageDimensions]: the bitmap decoder when there is one and it
    succeeds, else an image element, whose [onerror] rejects. *)
Definition getImageDimensions (env : Decoders) (f : File) : Settled (N * N) :=
  let fallback :=
    match loadImageElement env f with
    | Some wh => Fulfilled wh
    | None => Rejected (ErrorObject "Failed to load image dimensions")
    end in
  match createImageBitmap env with
  | Some decode =>
      match decode f with
      | Fulfilled wh => Fulfilled wh
      | Rejected _ => fallback
      end
  | None => fallback
  end.

End Compress.

(** ** [src/hooks/use-image-upload.ts]: validation *)
Module Validation.

Record ValidationOptions := mkValidation {
  maxSizeMB : Prop_ N;
  allowedTypes : Prop_ (list string);
  minWidth : Prop_ N;
  minHeight : Prop_ N;
  maxWidth : Prop_ N;
  maxHeight : Prop_ N
}.

Definition noValidation : ValidationOptions :=
  mkValidation Absent Absent Absent Absent Absent Absent.

Definition DEFAULT_VALIDATION : ValidationOptions :=
  mkValidation (Given 10)
    (Given ["image/jpeg"; "image/png"; "image/webp"; "image/gif"])
    Absent Absent Absent Absent.

(** [allowedTypes.includes(file.type)] *)
Definition includes (l : list string) (s : string) : bool :=
  existsb (String.eqb s) l.

(** [allowedTypes.join(", ")] *)
Definition join (l : list string) : string := String.concat ", " l.

(** The value of an optional property once it has been found truthy. *)
Definition bound (p : Prop_ N) : N :=
  match p with
  | Given n => n
  | _ => 0
  end.

Definition listed (p : Prop_ (list string)) : list string :=
  match p with
  | Given l => l
  | _ => []
  end.

(** Truthiness of an optional array: every array is truthy. *)
Definition truthyList (p : Prop_ (list string)) : bool :=
  match p with
  | Given _ => true
  | _ => false
  end.

Definition validateFile (f : File) (options : ValidationOptions)
  : option string :=
  let maxSizeMB := spread (maxSizeMB DEFAULT_VALIDATION) (maxSizeMB options) in
  let allowedTypes :=
    spread (allowedTypes DEFAULT_VALIDATION) (allowedTypes options) in
  if negb (Compress.isImageFile f)
  then Some "File must be an image"
  else if truthyList allowedTypes
          && negb (includes (listed allowedTypes) (ftype f))
  then Some ("Allowed types: " ++ join (listed allowedTypes))
  else if truthyN maxSizeMB && (bound maxSizeMB * 1024 * 1024 <? fsize f)
  then Some ("File too large. Max: " ++ showN (bound maxSizeMB)
             ++ "MB, Got: " ++ Compress.formatFileSize (fsize f))
  else None.

(** An asynchronous function with at most one dimension probe: it either
    returns without probing, or probes a file and continues with what the
    probe settled to. *)
Inductive Probing (A : Type) :=
| Done (a : A)
| Probe (f : File) (k : Settled (N * N) -> A).
Arguments Done {A} a.
Arguments Probe {A} f k.

Definition probes {A} (p : Probing A) : bool :=
  match p with
  | Done _ => false
  | Probe _ _ => true
  end.

(** [validateDimensions]; the dynamic [import] of the helper is taken to
    succeed. *)
Definition validateDimensions (f : File) (options : ValidationOptions)
  : Probing (option string) :=
  let minWidth := minWidth options in
  let minHeight := minHeight options in
  let maxWidth := maxWidth options in
  let maxHeight := maxHeight options in
  if negb (truthyN minWidth) && negb (truthyN minHeight)
     && negb (truthyN maxWidth) && negb (truthyN maxHeight)
  then Done None
  else
    Probe f (fun settled =>
      match settled with
      | Fulfilled (width, height) =>
          if truthyN minWidth && (width <? bound minWidth)
          then Some ("Image width must be at least "
                     ++ showN (bound minWidth) ++ "px")
          else if truthyN minHeight && (height <? bound minHeight)
          then Some ("Image height must be at least "
                     ++ showN (bound minHeight) ++ "px")
          else if truthyN maxWidth && (bound maxWidth <? width)
          then Some ("Image width must be at most "
                     ++ showN (bound maxWidth) ++ "px")
          else if truthyN maxHeight && (bound maxHeight <? height)
          then Some ("Image height must be at most "
                     ++ showN (bound maxHeight) ++ "px")
          else None
      | Rejected _ => Some "Failed to read image dimensions"
      end).

(** Run a probing function against the environment's decoders. *)
Definition settle {A} (env : Compress.Decoders) (p : Probing A) : A :=
  match p with
  | Done a => a
  | Probe f k => k (Compress.getImageDimensions env f)
  end.

(** The verdict [handleFile] acts on: [validateFile] first, and
    [validateDimensions] only for a file that passed it. *)
Definition validate (env : Compress.Decoders) (f : File)
  (options : ValidationOptions) : option string :=
  match validateFile f options with
  | Some validationError => Some validationError
  | None => settle env (validateDimensions f options)
  end.

End Validation.

(** ** [src/hooks/use-image-upload.ts]: [validateFile] under any limit

    [Validation] holds [maxSizeMB] as a whole number of megabytes.  Here
    the same function is given with [maxSizeMB] ranging over every
    JavaScript number. *)
Module AnyLimit.

(** A JavaScript number as [maxSizeMB] can hold it.  [Whole n] is a
    non-negative integer, which a template literal prints as its digits
    when it is below 10^21.  [Finite value shown] is any other finite
    number: its exact value, and the text that a template literal prints
    for it ([0.5], [-1], [1e+21]). *)
Inductive JsNumber :=
| Whole (n : N)
| Finite (value : Q) (shown : string)
| Infinity (negative : bool)
| NaN.

(** Truthiness: [0], [-0] and [NaN] are falsy. *)
Definition truthy (m : JsNumber) : bool :=
  match m with
  | Whole n => negb (n =? 0)
  | Finite value _ => negb (Qeq_bool value 0)
  | Infinity _ => true
  | NaN => false
  end.

(** [size > m * 1024 * 1024].  The two products are by powers of two
    and so exact; a comparison with [NaN] is false. *)
Definition exceeds (size : N) (m : JsNumber) : bool :=
  match m with
  | Whole n => n * 1024 * 1024 <? size
  | Finite value _ =>
      negb (Qle_bool (inject_Z (Z.of_N size))
                     (value * (1024 # 1) * (1024 # 1))%Q)
  | Infinity negative => negative
  | NaN => false
  end.

(** [`${m}`] *)
Definition render (m : JsNumber) : string :=
  match m with
  | Whole n => showN n
  | Finite _ shown => shown
  | Infinity false => "Infinity"
  | Infinity true => "-Infinity"
  | NaN => "NaN"
  end.


Record ValidationOptions := mkValidation {
  maxSizeMB : Prop_ JsNumber;
  allowedTypes : Prop_ (list string);
  minWidth : Prop_ N;
  minHeight : Prop_ N;
  maxWidth : Prop_ N;
  maxHeight : Prop_ N
}.

Definition DEFAULT_VALIDATION : ValidationOptions :=
  mkValidation (Given (Whole 10))
    (Given ["image/jpeg"; "image/png"; "image/webp"; "image/gif"])
    Absent Absent Absent Absent.

Definition truthyNumber (p : Prop_ JsNumber) : bool :=
  match p with
  | Given m => truthy m
  | _ => false
  end.

(** The number once the property has been found truthy. *)
Definition number (p : Prop_ JsNumber) : JsNumber :=
  match p with
  | Given m => m
  | _ => NaN
  end.

Definition validateFile (f : File) (options : ValidationOptions)
  : option string :=
  let maxSizeMB := spread (maxSizeMB DEFAULT_VALIDATION) (maxSizeMB options) in
  let allowedTypes :=
    spread (allowedTypes DEFAULT_VALIDATION) (allowedTypes options) in
  if negb (Compress.isImageFile f)
  then Some "File must be an image"
  else if Validation.truthyList allowedTypes
          && negb (Validation.includes (Validation.listed allowedTypes)
                                       (ftype f))
  then Some ("Allowed types: "
             ++ Validation.join (Validation.listed allowedTypes))
  else if truthyNumber maxSizeMB && exceeds (fsize f) (number maxSizeMB)
  then Some ("File too large. Max: " ++ render (number maxSizeMB)
             ++ "MB, Got: " ++ Compress.formatFileSize (fsize f))
  else None.

(** The options of [Validation], with the limit as a number. *)
Definition ofWhole (options : Validation.ValidationOptions)
  : ValidationOptions :=
  mkValidation
    match Validation.maxSizeMB options with
    | Given n => Given (Whole n)
    | Undefined => Undefined
    | Absent => Absent
    end
    (Validation.allowedTypes options)
    (Validation.minWidth options) (Validation.minHeight options)
    (Validation.maxWidth options) (Validation.maxHeight options).

End AnyLimit.

(** ** [src/hooks/use-image-upload.ts]: the hook *)
Module UploadHook.

Record ImageUploadState := mkState {
  file : option File;
  compressedFile : option File;
  preview : option N;
  isCompressing : bool;
  progress : N;
  error : option string;
  originalSize : N;
  compressedSize : N;
  wasSkipped : bool
}.

Definition INITIAL_STATE : ImageUploadState :=
  mkState None None None false 0 None 0 0 false.

(** [UseImageUploadOptions], with the defaults of the destructuring
    already applied by the caller. *)
Record UseImageUploadOptions := mkHookOptions {
  compression : Compress.CompressOptions;
  validation : Validation.ValidationOptions;
  autoCompress : bool;
  generatePreview : bool
}.

(** One mounted instance: the React state, the two refs, and the
    object URLs created for previews.  The URL that
    [getImageDimensions] creates and revokes for its own probe is not
    in this table. *)
Record Hook := mkHook {
  state : ImageUploadState;
  previewUrlRef : option N;
  compressionIdRef : N;
  urls : ObjectURLs
}.

Definition mount : Hook := mkHook INITIAL_STATE None 0 noURLs.

Definition setState (g : ImageUploadState -> ImageUploadState) (h : Hook)
  : Hook :=
  mkHook (g (state h)) (previewUrlRef h) (compressionIdRef h) (urls h).

Definition bumpSession (h : Hook) : Hook :=
  mkHook (state h) (previewUrlRef h) (compressionIdRef h + 1) (urls h).

Definition cleanupPreview (h : Hook) : Hook :=
  match previewUrlRef h with
  | Some u =>
      mkHook (state h) None (compressionIdRef h) (revokeObjectURL u (urls h))
  | None => h
  end.

Definition reset (h : Hook) : Hook :=
  setState (fun _ => INITIAL_STATE) (cleanupPreview (bumpSession h)).

(** What one turn of the event loop can run on the instance: a call of
    one of the returned functions up to its first [await], or the
    resumption of a suspended call.  A resumption carries the session id
    that the suspended call holds in its closure. *)
Inductive Event :=
| CallHandleFile (f : File)
| DimensionsSettled (sessionId : N) (f : File)
| CompressionProgress (sessionId : N) (percent : N)
| CompressionSettled (sessionId : N) (r : Settled Compress.CompressResult)
| CallReset
| CallCompress
| Unmount.

Section Instance.

Variable options : UseImageUploadOptions.
Variable env : Compress.Decoders.

(** [runCompression] up to [await compressImage(...)]. *)
Definition runCompression_begin (h : Hook) : Hook :=
  setState (fun s =>
    mkState (file s) (compressedFile s) (preview s) true 0 None
            (originalSize s) (compressedSize s) (wasSkipped s)) h.

(** The [onProgress] callback that [runCompression] hands to
    [compressImage]. *)
Definition onProgress (sessionId percent : N) (h : Hook) : Hook :=
  if compressionIdRef h =? sessionId
  then setState (fun s =>
         mkState (file s) (compressedFile s) (preview s) (isCompressing s)
                 percent (error s) (originalSize s) (compressedSize s)
                 (wasSkipped s)) h
  else h.

(** [runCompression] from the point where [compressImage] settles. *)
Definition runCompression_end (sessionId : N)
  (r : Settled Compress.CompressResult) (h : Hook) : Hook :=
  match r with
  | Fulfilled result =>
      if negb (compressionIdRef h =? sessionId) then h
      else setState (fun s =>
             mkState (file s) (Some (Compress.file result)) (preview s)
                     false 100 (error s) (originalSize s)
                     (Compress.compressedSize result)
                     (Compress.wasSkipped result)) h
  | Rejected thrown =>
      if negb (compressionIdRef h =? sessionId) then h
      else setState (fun s =>
             mkState (file s) (compressedFile s) (preview s) false
                     (progress s)
                     (Some match thrown with
                           | ErrorObject message => message
                           | NonError _ => "Compression failed"
                           end)
                     (originalSize s) (compressedSize s) (wasSkipped s)) h
  end.

(** [compress] up to its [await]. *)
Definition compress (h : Hook) : Hook :=
  match file (state h) with
  | None => h
  | Some _ => runCompression_begin (bumpSession h)
  end.

(** [handleFile] up to [await validateDimensions(...)]; the boolean
    tells whether the call is suspended there. *)
Definition handleFile_begin (f : File) (h : Hook) : Hook * bool :=
  let h := cleanupPreview (bumpSession h) in
  match Validation.validateFile f (validation options) with
  | Some validationError =>
      (setState (fun _ =>
         mkState None None None false 0 (Some validationError) 0 0 false) h,
       false)
  | None => (h, true)
  end.

(** [handleFile] from the point where [validateDimensions] settles, up
    to [await runCompression(...)]. *)
Definition handleFile_resume (sessionId : N) (f : File) (h : Hook) : Hook :=
  match Validation.settle env
          (Validation.validateDimensions f (validation options)) with
  | Some dimensionError =>
      setState (fun _ =>
        mkState None None None false 0 (Some dimensionError) 0 0 false) h
  | None =>
      let '(preview, h) :=
        if generatePreview options
        then let '(u, table) := createObjectURL (urls h) in
             (Some u,
              mkHook (state h) (Some u) (compressionIdRef h) table)
        else (None, h) in
      let h := setState (fun _ =>
        mkState (Some f) None preview false 0 None (fsize f) 0 false) h in
      if autoCompress options then runCompression_begin h else h
  end.

Definition step (h : Hook) (e : Event) : Hook :=
  match e with
  | CallHandleFile f => fst (handleFile_begin f h)
  | DimensionsSettled sessionId f => handleFile_resume sessionId f h
  | CompressionProgress sessionId percent => onProgress sessionId percent h
  | CompressionSettled sessionId r => runCompression_end sessionId r h
  | CallReset => reset h
  | CallCompress => compress h
  | Unmount => cleanupPreview h
  end.

Definition run (h : Hook) (es : list Event) : Hook := fold_left step es h.

(** The calls that begin a session: they increment
    [compressionIdRef.current]. *)
Definition beginsSession (h : Hook) (e : Event) : bool :=
  match e with
  | CallHandleFile _ => true
  | CallReset => true
  | CallCompress =>
      match file (state h) with
      | Some _ => true
      | None => false
      end
  | _ => false
  end.

(** The resumptions through which the compression of session
    [sessionId] reports: its progress callbacks and its settlement. *)
Definition resolves (sessionId : N) (e : Event) : bool :=
  match e with
  | CompressionProgress s _ => s =? sessionId
  | CompressionSettled s _ => s =? sessionId
  | _ => false
  end.

(** A selection that runs to its suspension in [runCompression] before
    anything else happens. *)
Definition select (f : File) (h : Hook) : Hook :=
  let '(h, suspended) := handleFile_begin f h in
  if suspended then handleFile_resume (compressionIdRef h) f h else h.

(** A user's turn with the hook when every selection reaches its
    compression before the next turn: a selection, or any turn other
    than the resumption of a suspended selection. *)
Inductive Turn :=
| Selection (f : File)
| Other (e : Event).

Definition wellFormed (t : Turn) : bool :=
  match t with
  | Other (DimensionsSettled _ _) => false
  | _ => true
  end.

Definition play (h : Hook) (t : Turn) : Hook :=
  match t with
  | Selection f => select f h
  | Other e => step h e
  end.

End Instance.

(** The table holds exactly the handle the ref points to, and every
    handle issued so far is either that one or released. *)
Definition Tidy (h : Hook) : Prop :=
  live (urls h) = match previewUrlRef h with
                  | Some u => [u]
                  | None => []
                  end
  /\ issued (urls h)
     = released (urls h) + N.of_nat (List.length (live (urls h))).

End UploadHook.

(** ** [src/components/file-upload.tsx] *)
Module FileUploadControl.

(** The [value] prop as the component inspects it at run time
    ([Array.isArray], [typeof value === "string"]). *)
Inductive JsValue :=
| VUndefined
| VString (s : string)
| VArray (l : list string).

Record Area := mkArea {
  x : N;
  y : N;
  width : N;
  height : N
}.

Record Blob := mkBlob {
  blobSize : N;
  blobBytes : N
}.

Record Props := mkProps {
  multiple : bool;
  value : JsValue;
  disabled : bool;
  aspectRatio : Q;
  compressionOptions : Compress.CompressOptions
}.

(** The component's own state, with the browser's object-URL table. *)
Record Control := mkControl {
  imageSrc : option N;
  zoom : Q;
  croppedAreaPixels : option Area;
  isUploading : bool;
  progressText : string;
  urls : ObjectURLs
}.

Definition mount : Control := mkControl None (1 # 1)%Q None false "" noURLs.

(** What a handler does to the outside, in the order it does it. *)
Inductive Effect :=
| Upload (f : File)
| ChangeSingle (v : string)
| ChangeMultiple (v : list string)
| ToastSuccess (message : string)
| ToastError (message : string)
| ConsoleLog (message : string)
| ConsoleError (label : option string) (e : Thrown).

(** [Promise.all]: the values in order when every promise fulfils, a
    rejection otherwise (the first one of the list stands for the first
    one in time). *)
Fixpoint all {A} (l : list (Settled A)) : Settled (list A) :=
  match l with
  | [] => Fulfilled []
  | Rejected e :: _ => Rejected e
  | Fulfilled a :: rest =>
      match all rest with
      | Fulfilled values => Fulfilled (a :: values)
      | Rejected e => Rejected e
      end
  end.

(** The [finally] blocks: [setIsUploading(false); setProgressText("")]. *)
Definition settled (c : Control) : Control :=
  mkControl (imageSrc c) (zoom c) (croppedAreaPixels c) false "" (urls c).

Definition handleClose (c : Control) : Control :=
  mkControl None (1 # 1)%Q (croppedAreaPixels c) (isUploading c)
            (progressText c) (urls c).

(** The component registers no effect cleanup: unmounting runs none of
    its code. *)
Definition unmount (c : Control) : Control := c.

Section Instance.

Variable props : Props.
Variable imageCompression
  : File -> Compress.EncoderOptions -> Settled File.
(** The [onUpload] prop. *)
Variable onUpload : File -> Settled string.
(** [getCroppedImg] of [@/lib/canvas]. *)
Variable getCroppedImg : N -> Area -> Settled (option Blob).

Definition compressImage :=
  Compress.compressImage imageCompression.

(** The callback mapped over [acceptedFiles] in multiple mode: the file
    to upload, and what it prints. *)
Definition compressOrOriginal (f : File) : File * Effect :=
  match compressImage f (compressionOptions props) with
  | Fulfilled result =>
      (Compress.file result,
       ConsoleLog ("Compressed " ++ fname f ++ ": "
                   ++ Compress.formatFileSize (Compress.originalSize result)
                   ++ " -> "
                   ++ Compress.formatFileSize
                        (Compress.compressedSize result)))
  | Rejected error =>
      (f,
       ConsoleError
         (Some ("Gagal compress " ++ fname f ++ ", menggunakan file asli"))
         error)
  end.

(** [onDrop], run to completion. *)
Definition onDrop (acceptedFiles : list File) (c : Control)
  : Control * list Effect :=
  if multiple props then
    match acceptedFiles with
    | [] => (c, [])
    | _ =>
        let compressed := map compressOrOriginal acceptedFiles in
        let compressedFiles := map fst compressed in
        let uploadPromises := map onUpload compressedFiles in
        let begun :=
          (map snd compressed ++ map Upload compressedFiles)%list in
        match all uploadPromises with
        | Fulfilled newUrls =>
            let currentValues :=
              match value props with
              | VArray l => l
              | _ => []
              end in
            (settled c,
             (begun
              ++ [ChangeMultiple (currentValues ++ newUrls)%list;
                  ToastSuccess (showN (N.of_nat (List.length newUrls))
                                ++ " gambar berhasil diupload")%string])%list)
        | Rejected error =>
            (settled c,
             (begun
              ++ [ConsoleError None error;
                  ToastError "Gagal mengupload beberapa gambar"])%list)
        end
    end
  else
    match acceptedFiles with
    | f :: _ =>
        let '(url, table) := createObjectURL (urls c) in
        (mkControl (Some url) (zoom c) (croppedAreaPixels c)
                   (isUploading c) (progressText c) table,
         [])
    | [] => (c, [])
    end.

(** The [catch] of [handleCropAndUpload]. *)
Definition cropFailed (error : Thrown) : list Effect :=
  [ConsoleError None error; ToastError "Gagal mengupload gambar"].

(** [handleCropAndUpload], run to completion. *)
Definition handleCropAndUpload (c : Control) : Control * list Effect :=
  match imageSrc c, croppedAreaPixels c with
  | Some src, Some pixels =>
      match getCroppedImg src pixels with
      | Rejected error => (settled c, cropFailed error)
      | Fulfilled None =>
          (settled c, cropFailed (ErrorObject "Gagal memproses gambar"))
      | Fulfilled (Some croppedBlob) =>
          let croppedFile :=
            mkFile "cropped-image.jpg" "image/jpeg"
                   (blobSize croppedBlob) (blobBytes croppedBlob) in
          match compressImage croppedFile (compressionOptions props) with
          | Rejected error => (settled c, cropFailed error)
          | Fulfilled compressedResult =>
              let printed :=
                ConsoleLog
                  ("Optimization: "
                   ++ Compress.formatFileSize
                        (Compress.originalSize compressedResult)
                   ++ " -> "
                   ++ Compress.formatFileSize
                        (Compress.compressedSize compressedResult)) in
              let sent := Upload (Compress.file compressedResult) in
              match onUpload (Compress.file compressedResult) with
              | Rejected error =>
                  (settled c, ([printed; sent] ++ cropFailed error)%list)
              | Fulfilled uploadedUrl =>
                  (settled (handleClose c),
                   ([printed; sent]
                    ++ (if multiple props then []
                        else [ChangeSingle uploadedUrl])
                    ++ [ToastSuccess "Gambar berhasil diupload"])%list)
              end
          end
      end
  | _, _ => (c, [])
  end.

Definition handleRemove (urlToRemove : string) : list Effect :=
  match multiple props, value props with
  | true, VArray l =>
      [ChangeMultiple
         (filter (fun url => negb (url =? urlToRemove)%string) l)]
  | _, _ => [ChangeSingle ""]
  end.

(** One selection in the control, dismissed through [handleClose]. *)
Definition selectAndClose (c : Control) (f : File) : Control :=
  handleClose (fst (onDrop [f] c)).

(** The files a batch hands to [onUpload], in order. *)
Definition batchUploads (acceptedFiles : list File) : list File :=
  map fst (map compressOrOriginal acceptedFiles).

End Instance.

(** The files a handler passed to [onUpload]. *)
Definition uploads (effects : list Effect) : list File :=
  flat_map (fun e => match e with Upload f => [f] | _ => [] end) effects.

(** The arguments a handler passed to [onChange], oldest first. *)
Definition changes (effects : list Effect) : list JsValue :=
  flat_map (fun e =>
    match e with
    | ChangeSingle v => [VString v]
    | ChangeMultiple v => [VArray v]
    | _ => []
    end) effects.

(** The committed value held by the embedding form, which stores what
    [onChange] receives. *)
Definition committed (before : JsValue) (effects : list Effect) : JsValue :=
  last (changes effects) before.

End FileUploadControl.

(** ** [src/components/providers.tsx]: the editor's [uploadFile] *)
Module EditorUpload.

(** The JSON body of the upload endpoint's reply, as [uploadFile] reads
    it: [success], [error] and [url]. *)
Record Reply := mkReply {
  success : bool;
  replyError : option string;
  url : string
}.

(** A [fetch] response: [response.ok], and what [response.json()]
    settles to. *)
Record Response := mkResponse {
  ok : bool;
  json : Settled Reply
}.

Inductive Effect :=
| Fetch (f : File)
| ToastError (title : string) (description : option string)
| ToastSuccess (title description : string).

(** The options [uploadFile] compresses with. *)
Definition uploadOptions : Compress.CompressOptions :=
  Compress.mkOptions (Some 1200) (Some (3 # 10)%Q) None None None
                     (Some (8 # 10)%Q).

(** [(error as Error).message] *)
Definition messageOf (e : Thrown) : option string :=
  match e with
  | ErrorObject m => Some m
  | NonError _ => None
  end.

(** [result.error || "Upload gagal"]: an empty string is falsy. *)
Definition replyMessage (r : Reply) : string :=
  match replyError r with
  | Some m => if (m =? "")%string then "Upload gagal" else m
  | None => "Upload gagal"
  end.

Section Instance.

Variable imageCompression : File -> Compress.EncoderOptions -> Settled File.
(** [fetch("/api/upload?scope=news", ...)] with the file in the form. *)
Variable fetch : File -> Settled Response.
(** [(uploadTime / 1000).toFixed(1)], the elapsed seconds as printed. *)
Variable elapsed : string.

(** The [catch] of [uploadFile]: one toast, and the error rethrown. *)
Definition rethrown (done : list Effect) (e : Thrown)
  : Settled string * list Effect :=
  (Rejected e,
   (done ++ [ToastError "Gagal mengunggah gambar" (messageOf e)])%list).

Definition sizeInfo (originalSize : N) (fileToUpload : File) : string :=
  if fsize fileToUpload <? originalSize
  then "Ukuran: " ++ Compress.formatFileSize originalSize ++ " → "
       ++ Compress.formatFileSize (fsize fileToUpload)
       ++ ", Waktu: " ++ elapsed ++ "s"
  else "Ukuran: " ++ Compress.formatFileSize (fsize fileToUpload)
       ++ ", Waktu: " ++ elapsed ++ "s".

(** [uploadFile], run to completion: what the promise settles to, and
    what was done on the way. *)
Definition uploadFile (f : File) : Settled string * list Effect :=
  if negb (Compress.isImageFile f) then
    let error := "File harus berupa gambar (JPEG, PNG, WebP, GIF)" in
    (Rejected (ErrorObject error),
     [ToastError "Gagal Mengupload Gambar" (Some error)])
  else
    let originalSize := fsize f in
    let prepared :=
      if 1024 * 1024 <? fsize f
      then match Compress.compressImage imageCompression f uploadOptions with
           | Fulfilled result => Fulfilled (Compress.file result)
           | Rejected e => Rejected e
           end
      else Fulfilled f in
    match prepared with
    | Rejected e => rethrown [] e
    | Fulfilled fileToUpload =>
        match fetch fileToUpload with
        | Rejected e => rethrown [Fetch fileToUpload] e
        | Fulfilled response =>
            match json response with
            | Rejected e => rethrown [Fetch fileToUpload] e
            | Fulfilled result =>
                if negb (ok response) || negb (success result)
                then rethrown [Fetch fileToUpload]
                              (ErrorObject (replyMessage result))
                else (Fulfilled (url result),
                      [Fetch fileToUpload;
                       ToastSuccess "Gambar berhasil diunggah"
                                    (sizeInfo originalSize fileToUpload)])
            end
        end
    end.

End Instance.

Definition fetched (effects : list Effect) : list File :=
  flat_map (fun e => match e with Fetch f => [f] | _ => [] end) effects.

Definition errorToasts (effects : list Effect) : nat :=
  List.length (filter (fun e => match e with
                                | ToastError _ _ => true
                                | _ => false
                                end) effects).

Definition successToasts (effects : list Effect) : nat :=
  List.length (filter (fun e => match e with
                                | ToastSuccess _ _ => true
                                | _ => false
                                end) effects).

End EditorUpload.

(** ** [src/unnamed/part_005]: the debounce hooks *)
Module Debounce.

(** The browser's timers: [setTimeout] hands out a fresh non-zero id and
    arms it with what its closure captured; [clearTimeout] disarms an
    id, and does nothing for one that is not armed. *)
Record Timers (P : Type) := mkTimers {
  nextId : N;
  armed : list (N * P)
}.
Arguments mkTimers {P} nextId armed.
Arguments nextId {P} t.
Arguments armed {P} t.

Definition noTimers {P} : Timers P := mkTimers 1 [].

Definition setTimeout {P} (payload : P) (t : Timers P) : N * Timers P :=
  (nextId t, mkTimers (nextId t + 1) ((nextId t, payload) :: armed t)).

Definition clearTimeout {P} (id : N) (t : Timers P) : Timers P :=
  mkTimers (nextId t) (filter (fun e => negb (fst e =? id)) (armed t)).

(** The payload an armed id carries. *)
Fixpoint due {P} (id : N) (l : list (N * P)) : option P :=
  match l with
  | [] => None
  | (i, p) :: rest => if i =? id then Some p else due id rest
  end.

Section Hooks.

(** The arguments of a call, and what identifies a callback. *)
Context {Args Callback : Type}.

(** One instance of [useDebouncedCallbackWithCancel]: its three refs,
    the timers, and the calls made to callbacks so far. *)
Record Cancellable := mkCancellable {
  timeoutRef : option N;
  callbackRef : Callback;
  argsRef : option Args;
  timers : Timers Args;
  invoked : list (Callback * Args)
}.

Definition mountCancellable (callback : Callback) : Cancellable :=
  mkCancellable None callback None noTimers [].

Inductive Event :=
| Render (callback : Callback)
| Call (args : Args)
| Fire (id : N)
| Cancel
| Flush (args : Args)
| Unmount.

Definition cancel (h : Cancellable) : Cancellable :=
  match timeoutRef h with
  | Some id =>
      mkCancellable None (callbackRef h) None
                    (clearTimeout id (timers h)) (invoked h)
  | None =>
      mkCancellable None (callbackRef h) None (timers h) (invoked h)
  end.

Definition flush (args : Args) (h : Cancellable) : Cancellable :=
  let h := cancel h in
  mkCancellable (timeoutRef h) (callbackRef h) (argsRef h) (timers h)
                (invoked h ++ [(callbackRef h, args)])%list.

Definition debouncedCallback (args : Args) (h : Cancellable)
  : Cancellable :=
  let cleared :=
    match timeoutRef h with
    | Some id => clearTimeout id (timers h)
    | None => timers h
    end in
  let '(id, table) := setTimeout args cleared in
  mkCancellable (Some id) (callbackRef h) (Some args) table (invoked h).

(** The timer's closure, when the timer [id] goes off. *)
Definition fire (id : N) (h : Cancellable) : Cancellable :=
  match due id (armed (timers h)) with
  | Some args =>
      mkCancellable (timeoutRef h) (callbackRef h) None
                    (clearTimeout id (timers h))
                    (invoked h ++ [(callbackRef h, args)])%list
  | None => h
  end.

Definition unmountCancellable (h : Cancellable) : Cancellable :=
  match timeoutRef h with
  | Some id =>
      mkCancellable (timeoutRef h) (callbackRef h) (argsRef h)
                    (clearTimeout id (timers h)) (invoked h)
  | None => h
  end.

Definition step (h : Cancellable) (e : Event) : Cancellable :=
  match e with
  | Render callback =>
      mkCancellable (timeoutRef h) callback (argsRef h) (timers h)
                    (invoked h)
  | Call args => debouncedCallback args h
  | Fire id => fire id h
  | Cancel => cancel h
  | Flush args => flush args h
  | Unmount => unmountCancellable h
  end.

Definition run (h : Cancellable) (es : list Event) : Cancellable :=
  fold_left step es h.

(** One instance of [useDebouncedCallback]: the same without [argsRef],
    [cancel] and [flush]. *)
Record Plain := mkPlain {
  plainTimeoutRef : option N;
  plainCallbackRef : Callback;
  plainTimers : Timers Args;
  plainInvoked : list (Callback * Args)
}.

Definition mountPlain (callback : Callback) : Plain :=
  mkPlain None callback noTimers [].

Definition stepPlain (h : Plain) (e : Event) : Plain :=
  match e with
  | Render callback =>
      mkPlain (plainTimeoutRef h) callback (plainTimers h) (plainInvoked h)
  | Call args =>
      let cleared :=
        match plainTimeoutRef h with
        | Some id => clearTimeout id (plainTimers h)
        | None => plainTimers h
        end in
      let '(id, table) := setTimeout args cleared in
      mkPlain (Some id) (plainCallbackRef h) table (plainInvoked h)
  | Fire id =>
      match due id (armed (plainTimers h)) with
      | Some args =>
          mkPlain (plainTimeoutRef h) (plainCallbackRef h)
                  (clearTimeout id (plainTimers h))
                  (plainInvoked h ++ [(plainCallbackRef h, args)])%list
      | None => h
      end
  | Unmount =>
      match plainTimeoutRef h with
      | Some id =>
          mkPlain (plainTimeoutRef h) (plainCallbackRef h)
                  (clearTimeout id (plainTimers h)) (plainInvoked h)
      | None => h
      end
  | Cancel => h
  | Flush _ => h
  end.

Definition runPlain (h : Plain) (es : list Event) : Plain :=
  fold_left stepPlain es h.

(** The events [useDebouncedCallback] has. *)
Definition plainEvent (e : Event) : bool :=
  match e with
  | Cancel => false
  | Flush _ => false
  | _ => true
  end.

End Hooks.

Arguments Cancellable : clear implicits.
Arguments Plain : clear implicits.
Arguments Event : clear implicits.

Section Value.

Context {T : Type}.

(** One instance of [useDebounce]: the debounced value, the timer of
    the effect now in force, and the timers. *)
Record Debounced := mkDebounced {
  debouncedValue : T;
  timer : option N;
  valueTimers : Timers T
}.

(** The first render: the state starts at the value, and the effect
    arms a timer for it. *)
Definition mountValue (value : T) : Debounced :=
  let '(id, table) := setTimeout value noTimers in
  mkDebounced value (Some id) table.

(** [Change]: a render in which [value] or [delay] differs from the
    last one, so that the effect is run again; [Elapse]: a timer goes
    off; [Leave]: the component unmounts. *)
Inductive ValueEvent :=
| Change (value : T)
| Elapse (id : N)
| Leave.

(** The cleanup of the effect in force. *)
Definition cleanup (h : Debounced) : Debounced :=
  match timer h with
  | Some id => mkDebounced (debouncedValue h) None
                           (clearTimeout id (valueTimers h))
  | None => h
  end.

Definition stepValue (h : Debounced) (e : ValueEvent) : Debounced :=
  match e with
  | Change value =>
      let h := cleanup h in
      let '(id, table) := setTimeout value (valueTimers h) in
      mkDebounced (debouncedValue h) (Some id) table
  | Elapse id =>
      match due id (armed (valueTimers h)) with
      | Some value =>
          mkDebounced value (timer h) (clearTimeout id (valueTimers h))
      | None => h
      end
  | Leave => cleanup h
  end.

Definition runValue (h : Debounced) (es : list ValueEvent) : Debounced :=
  fold_left stepValue es h.

End Value.

Arguments Debounced : clear implicits.
Arguments ValueEvent : clear implicits.

End Debounce.

(** * Vocabulary of the properties *)

(** A conversion is requested when [fileType] is set to a MIME type other
    than the file's own. *)
Definition ConversionRequested (f : File) (o : Compress.CompressOptions)
  : Prop :=
  exists t, Compress.fileType o = Some t /\ Compress.mimeOf t <> ftype f.


(** The limit and the allowed list that [validateFile] works with, after
    the defaults are merged in. *)
Definition effectiveMaxSizeMB (options : Validation.ValidationOptions)
  : Prop_ N :=
  spread (Validation.maxSizeMB Validation.DEFAULT_VALIDATION)
         (Validation.maxSizeMB options).

Definition effectiveAllowedTypes (options : Validation.ValidationOptions)
  : Prop_ (list string) :=
  spread (Validation.allowedTypes Validation.DEFAULT_VALIDATION)
         (Validation.allowedTypes options).

(** A file passes the type checks: it is an image, and it is in the
    allowed list when there is one. *)
Definition typeAccepted (f : File) (options : Validation.ValidationOptions)
  : Prop :=
  Compress.isImageFile f = true
  /\ forall types, effectiveAllowedTypes options = Given types ->
                   Validation.includes types (ftype f) = true.

(** A dimension bound counts as configured when it is truthy. *)
Definition configured (p : Prop_ N) : Prop := truthyN p = true.

Definition anyBoundConfigured (options : Validation.ValidationOptions)
  : Prop :=
  configured (Validation.minWidth options)
  \/ configured (Validation.minHeight options)
  \/ configured (Validation.maxWidth options)
  \/ configured (Validation.maxHeight options).

(** An image of [width] by [height] pixels satisfies every configured
    bound of the options, each bound included. *)
Definition withinBounds (options : Validation.ValidationOptions)
  (width height : N) : Prop :=
  (configured (Validation.minWidth options) ->
   Validation.bound (Validation.minWidth options) <= width)
  /\ (configured (Validation.minHeight options) ->
      Validation.bound (Validation.minHeight options) <= height)
  /\ (configured (Validation.maxWidth options) ->
      width <= Validation.bound (Validation.maxWidth options))
  /\ (configured (Validation.maxHeight options) ->
      height <= Validation.bound (Validation.maxHeight options)).

(** The MIME types of [DEFAULT_VALIDATION]. *)
Definition defaultTypes : list string :=
  ["image/jpeg"; "image/png"; "image/webp"; "image/gif"].

(** What a history of the mounted hook has led to, as far as previews
    go.  [held]: a continuation of [handleFile] has run since the last
    call that releases the preview ([handleFile], [reset]).  [stale]:
    the state may show a preview that has been released, because a
    selection waits for its dimension check. *)
Record Usage := mkUsage {
  held : bool;
  stale : bool
}.

Definition fresh : Usage := mkUsage false false.

(** One more turn of a history of the mounted hook in which selections
    do not overlap: no continuation of [handleFile] runs while the
    preview of an earlier one is still held.  [None] when the turn
    breaks that, and for the unmount, which ends the history. *)
Definition track (options : UploadHook.UseImageUploadOptions)
  (u : Usage) (e : UploadHook.Event) : option Usage :=
  match e with
  | UploadHook.CallHandleFile f =>
      Some (mkUsage false
              match Validation.validateFile f
                      (UploadHook.validation options) with
              | Some _ => false
              | None => true
              end)
  | UploadHook.DimensionsSettled _ _ =>
      if held u then None else Some (mkUsage true false)
  | UploadHook.CallReset => Some (mkUsage false false)
  | UploadHook.Unmount => None
  | _ => Some u
  end.

Fixpoint trackAll (options : UploadHook.UseImageUploadOptions)
  (u : Usage) (es : list UploadHook.Event) : option Usage :=
  match es with
  | [] => Some u
  | e :: rest =>
      match track options u e with
      | Some u' => trackAll options u' rest
      | None => None
      end
  end.

(** The preview that the state shows is the handle the ref holds. *)
Definition Shown (h : UploadHook.Hook) : Prop :=
  UploadHook.preview (UploadHook.state h) = UploadHook.previewUrlRef h.

(** At most one timer of the instance is armed; the ref holds its id
    and [argsRef] the arguments it will deliver. *)
Definition OneTimer {Args Callback : Type}
  (h : Debounce.Cancellable Args Callback) : Prop :=
  Debounce.armed (Debounce.timers h) = []
  \/ exists id args,
       Debounce.armed (Debounce.timers h) = [(id, args)]
       /\ Debounce.timeoutRef h = Some id
       /\ Debounce.argsRef h = Some args.

(** The same for [useDebounce]: the armed timer is the one of the effect
    in force. *)
Definition OneValueTimer {T : Type} (h : Debounce.Debounced T) : Prop :=
  Debounce.armed (Debounce.valueTimers h) = []
  \/ exists id value,
       Debounce.armed (Debounce.valueTimers h) = [(id, value)]
       /\ Debounce.timer h = Some id.




(** A run of [handleCropAndUpload] that failed: nothing was committed,
    the dialog still holds its image, and the error toast was raised. *)
Definition cropRunFailed (c : FileUploadControl.Control)
  (after : FileUploadControl.Control * list FileUploadControl.Effect)
  : Prop :=
  FileUploadControl.changes (snd after) = []
  /\ FileUploadControl.imageSrc (fst after) = FileUploadControl.imageSrc c
  /\ In (FileUploadControl.ToastError "Gagal mengupload gambar") (snd after).

(** What a history that [trackAll] accepts keeps true. *)
Definition Kept (u : Usage) (h : UploadHook.Hook) : Prop :=
  UploadHook.Tidy h
  /\ (held u = false -> UploadHook.previewUrlRef h = None)
  /\ (stale u = false -> Shown h).

(** * Sample inputs *)

Definition png100KB : File := mkFile "photo.png" "image/png" 102400 7.
Definition png120KB : File := mkFile "photo.png" "image/png" 122880 8.

Definition png6MB : File :=
  mkFile "big.png" "image/png" (6 * 1024 * 1024) 1.




Definition fixedSize (wh : N * N) : Compress.Decoders :=
  Compress.mkDecoders None (fun _ => Some wh).

Definition atLeast800Wide : Validation.ValidationOptions :=
  Validation.mkValidation Absent Absent (Given 800) Absent Absent Absent.

Definition pdf20MB : File :=
  mkFile "scan.pdf" "application/pdf" (20 * 1024 * 1024) 3.
Definition bmp20MB : File :=
  mkFile "scan.bmp" "image/bmp" (20 * 1024 * 1024) 4.

Definition undecodable : Compress.Decoders :=
  Compress.mkDecoders (Some (fun _ => Rejected (NonError "decode")))
                      (fun _ => None).

Definition previewAndCompress : UploadHook.UseImageUploadOptions :=
  UploadHook.mkHookOptions Compress.noOptions Validation.noValidation
                           true true.

Definition noBitmap : Compress.Decoders :=
  Compress.mkDecoders None (fun _ => Some (640, 480)).

Definition file1 : File := mkFile "one.png" "image/png" 4096 11.
Definition file2 : File := mkFile "two.png" "image/png" 8192 12.

Definition result1 : Compress.CompressResult :=
  Compress.mkResult (mkFile "one.png" "image/png" 1024 21) 4096 1024
                    (Compress.RatioOf 1024 4096) false.

Definition singleMode : FileUploadControl.Props :=
  FileUploadControl.mkProps false FileUploadControl.VUndefined false
    (1 # 1)%Q (Compress.mkOptions (Some 1920) (Some (1 # 1)%Q)
                 None None None None).

Definition multipleMode : FileUploadControl.Props :=
  FileUploadControl.mkProps true
    (FileUploadControl.VArray ["https://cdn/0.jpg"]) false (1 # 1)%Q
    (Compress.mkOptions (Some 1920) (Some (1 # 1)%Q) None None None None).

(** An encoder that halves every file. *)
Definition halving (f : File) (_ : Compress.EncoderOptions) : Settled File :=
  Fulfilled (mkFile (fname f) (ftype f) (fsize f / 2) (fbytes f + 100)).

(** An encoder that cannot decode anything. *)
Definition failing (_ : File) (_ : Compress.EncoderOptions) : Settled File :=
  Rejected (ErrorObject "decode failed").

(** An endpoint that stores every file under its name. *)
Definition storing (f : File) : Settled string :=
  Fulfilled ("https://cdn/" ++ fname f).

(** An endpoint that refuses the file named [two.png]. *)
Definition refusingTwo (f : File) : Settled string :=
  if (fname f =? "two.png")%string
  then Rejected (ErrorObject "503")
  else storing f.

Definition cropping : FileUploadControl.Control :=
  FileUploadControl.mkControl (Some 0) (1 # 1)%Q
    (Some (FileUploadControl.mkArea 0 0 100 100)) false ""
    (mkURLs 1 [0] 0).

Definition croppedTo (_ : N) (_ : FileUploadControl.Area)
  : Settled (option FileUploadControl.Blob) :=
  Fulfilled (Some (FileUploadControl.mkBlob 2048 31)).

Definition png10MB : File :=
  mkFile "edge.png" "image/png" (10 * 1024 * 1024) 6.

Definition between640and1920 : Validation.ValidationOptions :=
  Validation.mkValidation Absent Absent (Given 640) (Given 0)
                          (Given 1920) Undefined.

Definition threeUrls : FileUploadControl.Props :=
  FileUploadControl.mkProps true
    (FileUploadControl.VArray
       ["https://cdn/a.jpg"; "https://cdn/b.jpg"; "https://cdn/a.jpg"])
    false (1 # 1)%Q Compress.noOptions.

Definition jpg3MB : File :=
  mkFile "wide.jpg" "image/jpeg" (3 * 1024 * 1024) 41.

Definition accepting (f : File) : Settled EditorUpload.Response :=
  Fulfilled (EditorUpload.mkResponse true
               (Fulfilled (EditorUpload.mkReply true None
                             ("https://cdn/news/" ++ fname f)))).

Definition refusing (_ : File) : Settled EditorUpload.Response :=
  Fulfilled (EditorUpload.mkResponse false
               (Fulfilled (EditorUpload.mkReply false (Some "") ""))).



(** * Properties *)

(** ** Compression helper *)

Example formatFileSize_6MB :
  Compress.formatFileSize (6 * 1024 * 1024) = "6 MB".
Proof. reflexivity. Qed.

Example formatFileSize_1536 : Compress.formatFileSize 1536 = "1.5 KB".
Proof. reflexivity. Qed.

Example formatFileSize_1023 : Compress.formatFileSize 1023 = "1023 B".
Proof. reflexivity. Qed.

Lemma isFormatForced_spec (f : File) (o : Compress.CompressOptions) :
  Compress.isFormatForced f o = true <-> ConversionRequested f o.
Proof.
  unfold Compress.isFormatForced, ConversionRequested.
  destruct (Compress.fileType o) as [t|].
  - rewrite negb_true_iff. split.
    + intros H. exists t. split; [reflexivity|].
      now apply String.eqb_neq.
    + intros [t' [E H]]. injection E as <-. now apply String.eqb_neq.
  - split; [discriminate|]. intros [t [E _]]. discriminate.
Qed.

Lemma isFormatForced_false (f : File) (o : Compress.CompressOptions) :
  ~ ConversionRequested f o -> Compress.isFormatForced f o = false.
Proof.
  intros H. destruct (Compress.isFormatForced f o) eqn:E; [|reflexivity].
  exfalso. apply H. now apply isFormatForced_spec.
Qed.

(** C2.  When the encoder's output is at least as large as the input and
    no conversion to another MIME type is requested, [compressImage]
    returns the original file with [wasSkipped = true],
    [compressedSize = originalSize] and ratio 1; when the output is
    strictly smaller, or a conversion is requested, it returns the
    encoder's file with [wasSkipped = false]. *)
Theorem compressImage_skip_policy
  (imageCompression : File -> Compress.EncoderOptions -> Settled File)
  (f encoded : File) (o : Compress.CompressOptions)
  (Hencoded : imageCompression f (Compress.mergedOptions o)
              = Fulfilled encoded) :
  (fsize f <= fsize encoded -> ~ ConversionRequested f o ->
   Compress.compressImage imageCompression f o
   = Fulfilled (Compress.mkResult f (fsize f) (fsize f)
                  Compress.RatioOne true))
  /\
  (fsize encoded < fsize f \/ ConversionRequested f o ->
   exists r,
     Compress.compressImage imageCompression f o = Fulfilled r
     /\ Compress.wasSkipped r = false
     /\ Compress.file r = encoded
     /\ Compress.originalSize r = fsize f
     /\ Compress.compressedSize r = fsize encoded).
Proof.
  unfold Compress.compressImage. rewrite Hencoded. split.
  - intros Hsize Hconv.
    rewrite (isFormatForced_false _ _ Hconv).
    apply N.leb_le in Hsize. now rewrite Hsize.
  - intros Hcase.
    assert (E : (fsize f <=? fsize encoded)
                && negb (Compress.isFormatForced f o) = false).
    { destruct Hcase as [Hlt | Hconv].
      - apply N.leb_gt in Hlt. now rewrite Hlt.
      - apply isFormatForced_spec in Hconv. rewrite Hconv.
        apply andb_false_r. }
    rewrite E. eexists. repeat split.
Qed.

(** The spec's scenario, a 100 KB PNG that re-encodes to 120 KB, and
    the reverse, a 120 KB PNG that re-encodes to 100 KB. *)
Lemma compressImage_skip_policy_witness :
  Compress.compressImage (fun _ _ => Fulfilled png120KB) png100KB
    (Compress.mkOptions (Some 1920) None None None None None)
  = Fulfilled (Compress.mkResult png100KB 102400 102400
                 Compress.RatioOne true)
  /\ exists r,
       Compress.compressImage (fun _ _ => Fulfilled png100KB) png120KB
         (Compress.mkOptions (Some 1920) None None None None None)
       = Fulfilled r
       /\ Compress.wasSkipped r = false
       /\ Compress.file r = png100KB
       /\ Compress.originalSize r = 122880
       /\ Compress.compressedSize r = 102400.
Proof.
  split.
  - refine (proj1 (compressImage_skip_policy
                     (fun _ _ => Fulfilled png120KB) png100KB png120KB
                     (Compress.mkOptions (Some 1920) None None None None None)
                     eq_refl) _ _).
    + vm_compute. discriminate.
    + intros [t [E _]]. discriminate E.
  - refine (proj2 (compressImage_skip_policy
                     (fun _ _ => Fulfilled png100KB) png120KB png100KB
                     (Compress.mkOptions (Some 1920) None None None None None)
                     eq_refl) _).
    left. reflexivity.
Defined.

(** ** Validation *)





Lemma validateFile_typeAccepted (f : File)
  (options : Validation.ValidationOptions) :
  typeAccepted f options ->
  Validation.validateFile f options
  = if truthyN (effectiveMaxSizeMB options)
       && (Validation.bound (effectiveMaxSizeMB options) * 1024 * 1024
           <? fsize f)
    then Some ("File too large. Max: "
               ++ showN (Validation.bound (effectiveMaxSizeMB options))
               ++ "MB, Got: " ++ Compress.formatFileSize (fsize f))
    else None.
Proof.
  intros [Himg Hallowed]. unfold Validation.validateFile.
  rewrite Himg. cbn [negb].
  fold (effectiveAllowedTypes options). fold (effectiveMaxSizeMB options).
  destruct (effectiveAllowedTypes options) as [| |types] eqn:E;
    cbn [Validation.truthyList Validation.listed andb]; try reflexivity.
  rewrite (Hallowed types eq_refl). reflexivity.
Qed.

(** [Validation.validateFile] is [AnyLimit.validateFile] at whole
    limits. *)
Lemma validateFile_whole (f : File)
  (options : Validation.ValidationOptions) :
  Validation.validateFile f options
  = AnyLimit.validateFile f (AnyLimit.ofWhole options).
Proof.
  unfold Validation.validateFile, AnyLimit.validateFile, AnyLimit.ofWhole.
  cbn [AnyLimit.maxSizeMB AnyLimit.allowedTypes AnyLimit.DEFAULT_VALIDATION
       Validation.maxSizeMB Validation.allowedTypes
       Validation.DEFAULT_VALIDATION].
  destruct (Validation.maxSizeMB options); reflexivity.
Qed.




(** [validateFile] reads the file's MIME type and byte size only. *)
Lemma validateFile_reads_type_and_size
  (f1 f2 : File) (options : Validation.ValidationOptions) :
  ftype f1 = ftype f2 -> fsize f1 = fsize f2 ->
  Validation.validateFile f1 options = Validation.validateFile f2 options.
Proof.
  intros Ht Hs. unfold Validation.validateFile, Compress.isImageFile.
  now rewrite Ht, Hs.
Qed.

(** [validateDimensions] decides from the options whether to probe, and
    from the probe's outcome alone what to answer. *)
Lemma validateDimensions_reads_probe
  (env : Compress.Decoders) (f1 f2 : File)
  (options : Validation.ValidationOptions) :
  Compress.getImageDimensions env f1 = Compress.getImageDimensions env f2 ->
  Validation.settle env (Validation.validateDimensions f1 options)
  = Validation.settle env (Validation.validateDimensions f2 options).
Proof.
  intros Hd. unfold Validation.validateDimensions.
  destruct (negb (truthyN (Validation.minWidth options))
            && negb (truthyN (Validation.minHeight options))
            && negb (truthyN (Validation.maxWidth options))
            && negb (truthyN (Validation.maxHeight options)));
    cbn [Validation.settle]; [reflexivity | now rewrite Hd].
Qed.

(** C8.  For a fixed rule set and environment, two files with the same
    MIME type, the same byte size and the same outcome of the dimension
    read get the same verdict from validation. *)
Theorem validate_deterministic
  (env : Compress.Decoders) (options : Validation.ValidationOptions)
  (f1 f2 : File)
  (Htype : ftype f1 = ftype f2)
  (Hsize : fsize f1 = fsize f2)
  (Hdims : Compress.getImageDimensions env f1
           = Compress.getImageDimensions env f2) :
  Validation.validate env f1 options = Validation.validate env f2 options.
Proof.
  unfold Validation.validate.
  rewrite (validateFile_reads_type_and_size f1 f2 options Htype Hsize).
  destruct (Validation.validateFile f2 options); [reflexivity|].
  now apply validateDimensions_reads_probe.
Qed.

(** Two files that differ in name and content, 640 pixels wide, against
    a minimum width of 800: both get the same rejection. *)
Lemma validate_deterministic_witness :
  Validation.validate (fixedSize (640, 480))
    (mkFile "a.png" "image/png" 2048 1) atLeast800Wide
  = Validation.validate (fixedSize (640, 480))
      (mkFile "b.png" "image/png" 2048 2) atLeast800Wide
  /\ Validation.validate (fixedSize (640, 480))
       (mkFile "b.png" "image/png" 2048 2) atLeast800Wide
     = Some "Image width must be at least 800px".
Proof.
  split.
  - apply validate_deterministic; reflexivity.
  - reflexivity.
Defined.

(** C9.  The checks of [validateFile] are tried in a fixed order: a file
    whose type does not start with [image/] gets [File must be an image]
    whatever its size and whatever the allowed list; an image outside the
    allowed list gets the allowed-types message whatever its size. *)
Theorem validateFile_precedence
  (f : File) (options : Validation.ValidationOptions) :
  (Compress.isImageFile f = false ->
   Validation.validateFile f options = Some "File must be an image")
  /\
  (forall types,
     Compress.isImageFile f = true ->
     effectiveAllowedTypes options = Given types ->
     Validation.includes types (ftype f) = false ->
     Validation.validateFile f options
     = Some ("Allowed types: " ++ Validation.join types)).
Proof.
  unfold Validation.validateFile. split.
  - intros H. now rewrite H.
  - intros types Himg Hallowed Hout. rewrite Himg. cbn [negb].
    fold (effectiveAllowedTypes options). rewrite Hallowed.
    cbn [Validation.truthyList Validation.listed andb].
    now rewrite Hout.
Qed.

(** A 20 MB PDF and a 20 MB bitmap against the defaults: each violates
    the allowed list and the 10 MB limit. *)
Lemma validateFile_precedence_witness :
  Validation.validateFile pdf20MB Validation.noValidation
  = Some "File must be an image"
  /\ Validation.validateFile bmp20MB Validation.noValidation
     = Some "Allowed types: image/jpeg, image/png, image/webp, image/gif".
Proof.
  split.
  - apply (proj1 (validateFile_precedence pdf20MB Validation.noValidation)).
    reflexivity.
  - apply (proj2 (validateFile_precedence bmp20MB Validation.noValidation)
             ["image/jpeg"; "image/png"; "image/webp"; "image/gif"]);
      reflexivity.
Defined.

Lemma validateDimensions_unbounded
  (f : File) (options : Validation.ValidationOptions) :
  ~ anyBoundConfigured options ->
  Validation.validateDimensions f options = Validation.Done None.
Proof.
  unfold anyBoundConfigured, configured, Validation.validateDimensions.
  intros H.
  destruct (truthyN (Validation.minWidth options)); [tauto|].
  destruct (truthyN (Validation.minHeight options)); [tauto|].
  destruct (truthyN (Validation.maxWidth options)); [tauto|].
  destruct (truthyN (Validation.maxHeight options)); [tauto|].
  reflexivity.
Qed.

(** C10.  With none of the four bounds configured, [validateDimensions]
    returns [null] without probing; so, whatever the decoders do, it
    probes, and it rejects, only under a configured bound. *)
Theorem validateDimensions_probe_only_when_bounded
  (f : File) (options : Validation.ValidationOptions) :
  (~ anyBoundConfigured options ->
   Validation.validateDimensions f options = Validation.Done None)
  /\
  (Validation.probes (Validation.validateDimensions f options) = true ->
   anyBoundConfigured options)
  /\
  (forall env message,
     Validation.settle env (Validation.validateDimensions f options)
     = Some message ->
     anyBoundConfigured options).
Proof.
  split; [apply validateDimensions_unbounded|].
  assert (D : anyBoundConfigured options \/ ~ anyBoundConfigured options).
  { unfold anyBoundConfigured, configured.
    destruct (truthyN (Validation.minWidth options)); [now left; left|].
    destruct (truthyN (Validation.minHeight options));
      [now left; right; left|].
    destruct (truthyN (Validation.maxWidth options));
      [now left; right; right; left|].
    destruct (truthyN (Validation.maxHeight options));
      [now left; right; right; right|].
    right. intros [H|[H|[H|H]]]; discriminate H. }
  split.
  - intros Hp. destruct D as [Y|No]; [exact Y|].
    rewrite (validateDimensions_unbounded f options No) in Hp.
    discriminate Hp.
  - intros env message Hs. destruct D as [Y|No]; [exact Y|].
    rewrite (validateDimensions_unbounded f options No) in Hs.
    discriminate Hs.
Qed.

(** No bound configured and no working decoder: the file is accepted
    without a probe.  With a bound, the failed probe is the rejection. *)
Lemma validateDimensions_probe_only_when_bounded_witness :
  Validation.validateDimensions png6MB Validation.noValidation
  = Validation.Done None
  /\ Validation.settle undecodable
       (Validation.validateDimensions png6MB atLeast800Wide)
     = Some "Failed to read image dimensions"
  /\ anyBoundConfigured atLeast800Wide.
Proof.
  split; [|split].
  - apply (proj1 (validateDimensions_probe_only_when_bounded
                    png6MB Validation.noValidation)).
    intros [H|[H|[H|H]]]; discriminate H.
  - reflexivity.
  - apply (proj2 (proj2 (validateDimensions_probe_only_when_bounded
                           png6MB atLeast800Wide))
             undecodable "Failed to read image dimensions").
    reflexivity.
Defined.

(** ** The hook: sessions *)

Section HookSessions.

Import UploadHook.

Variable options : UseImageUploadOptions.
Variable env : Compress.Decoders.

Lemma compressionIdRef_cleanupPreview (h : Hook) :
  compressionIdRef (cleanupPreview h) = compressionIdRef h.
Proof. unfold cleanupPreview. now destruct (previewUrlRef h). Qed.

(** A turn moves the counter by one when it begins a session and leaves
    it alone otherwise. *)
Lemma compressionIdRef_step (h : Hook) (e : Event) :
  compressionIdRef (step options env h e)
  = compressionIdRef h + (if beginsSession h e then 1 else 0).
Proof.
  destruct e as [f|sid f|sid p|sid r| | |]; cbn [step beginsSession].
  - unfold handleFile_begin.
    destruct (Validation.validateFile f (validation options));
      cbn [fst setState compressionIdRef];
      now rewrite compressionIdRef_cleanupPreview.
  - unfold handleFile_resume.
    destruct (Validation.settle env _); [now rewrite N.add_0_r|].
    destruct (generatePreview options), (autoCompress options);
      cbn; now rewrite N.add_0_r.
  - unfold onProgress.
    destruct (compressionIdRef h =? sid); cbn; now rewrite N.add_0_r.
  - unfold runCompression_end.
    destruct r; destruct (compressionIdRef h =? sid); cbn;
      now rewrite N.add_0_r.
  - unfold reset. cbn [setState compressionIdRef].
    now rewrite compressionIdRef_cleanupPreview.
  - unfold compress.
    destruct (file (state h)); cbn; [reflexivity | now rewrite N.add_0_r].
  - rewrite compressionIdRef_cleanupPreview. now rewrite N.add_0_r.
Qed.

(** The counter never goes down. *)
Lemma compressionIdRef_run (es : list Event) :
  forall h, compressionIdRef h <= compressionIdRef (run options env h es).
Proof.
  induction es as [|e es IH]; intros h; cbn [run fold_left].
  - reflexivity.
  - etransitivity; [|apply IH].
    rewrite compressionIdRef_step.
    destruct (beginsSession h e); lia.
Qed.

(** What a superseded session's compression reports is dropped. *)
Lemma stale_resolution_dropped (h : Hook) (sessionId : N) (e : Event) :
  compressionIdRef h <> sessionId -> resolves sessionId e = true ->
  step options env h e = h.
Proof.
  intros Hstale He.
  destruct e as [f|sid f|sid p|sid r| | |]; try discriminate He;
    cbn [resolves] in He; apply N.eqb_eq in He; subst sid;
    apply N.eqb_neq in Hstale; cbn [step].
  - unfold onProgress. now rewrite Hstale.
  - unfold runCompression_end. rewrite Hstale. now destruct r.
Qed.

(** C1.  Let a call begin session A, and let a later call begin session
    B, any turns in between.  From then on, whatever else happens, a
    progress callback or the settlement of A's compression leaves the
    whole instance, hence [file], [compressedFile], [preview],
    [progress] and [error], as it was.  The settlement of B's
    compression, while B is the active session, is applied. *)
Theorem superseded_session_cannot_mutate
  (h : Hook) (startA startB : Event) (between later : list Event)
  (HstartA : beginsSession h startA = true)
  (HstartB : beginsSession (run options env (step options env h startA)
                              between) startB = true) :
  let hA := step options env h startA in
  let sessionA := compressionIdRef hA in
  let hB := step options env (run options env hA between) startB in
  let sessionB := compressionIdRef hB in
  (forall e, resolves sessionA e = true ->
             step options env (run options env hB later) e
             = run options env hB later)
  /\
  (forall result,
     state (step options env hB
              (CompressionSettled sessionB (Fulfilled result)))
     = mkState (file (state hB))
               (Some (Compress.file result))
               (preview (state hB))
               false 100
               (error (state hB))
               (originalSize (state hB))
               (Compress.compressedSize result)
               (Compress.wasSkipped result)).
Proof.
  intros hA sessionA hB sessionB. split.
  - intros e He. apply (stale_resolution_dropped _ sessionA); [|exact He].
    pose proof (compressionIdRef_run later hB) as Hlater.
    pose proof (compressionIdRef_run between hA) as Hbetween.
    assert (HB : compressionIdRef hB
                 = compressionIdRef (run options env hA between) + 1).
    { unfold hB. rewrite compressionIdRef_step.
      unfold hA. now rewrite HstartB. }
    unfold sessionA. lia.
  - intros result. cbn [step].
    unfold runCompression_end, sessionB.
    rewrite N.eqb_refl. reflexivity.
Qed.

End HookSessions.

(** The spec's rapid re-selection: file 1 is selected and its compression
    is pending when file 2 is selected; file 1's compression then
    reports progress and completes. *)
Lemma superseded_session_cannot_mutate_witness :
  let afterBoth :=
    UploadHook.run previewAndCompress noBitmap UploadHook.mount
      [UploadHook.CallHandleFile file1; UploadHook.DimensionsSettled 1 file1;
       UploadHook.CallHandleFile file2; UploadHook.DimensionsSettled 2 file2] in
  UploadHook.step previewAndCompress noBitmap afterBoth
    (UploadHook.CompressionProgress 1 50) = afterBoth
  /\ UploadHook.step previewAndCompress noBitmap afterBoth
       (UploadHook.CompressionSettled 1 (Fulfilled result1)) = afterBoth
  /\ UploadHook.file (UploadHook.state afterBoth) = Some file2.
Proof.
  pose proof (superseded_session_cannot_mutate previewAndCompress noBitmap
                UploadHook.mount
                (UploadHook.CallHandleFile file1)
                (UploadHook.CallHandleFile file2)
                [UploadHook.DimensionsSettled 1 file1]
                [UploadHook.DimensionsSettled 2 file2]
                eq_refl eq_refl) as [Hdropped _].
  split; [|split].
  - exact (Hdropped (UploadHook.CompressionProgress 1 50) eq_refl).
  - exact (Hdropped (UploadHook.CompressionSettled 1 (Fulfilled result1))
             eq_refl).
  - reflexivity.
Defined.

(** ** Preview handles *)

Section HookHandles.

Import UploadHook.

Variable options : UseImageUploadOptions.
Variable env : Compress.Decoders.

Lemma tidy_setState (g : ImageUploadState -> ImageUploadState) (h : Hook) :
  Tidy h -> Tidy (setState g h).
Proof. intros H. exact H. Qed.

Lemma tidy_bumpSession (h : Hook) : Tidy h -> Tidy (bumpSession h).
Proof. intros H. exact H. Qed.

Lemma tidy_cleanupPreview (h : Hook) :
  Tidy h ->
  Tidy (cleanupPreview h) /\ previewUrlRef (cleanupPreview h) = None.
Proof.
  unfold Tidy, cleanupPreview. intros [Hlive Hcount].
  destruct (previewUrlRef h) as [u|] eqn:E; [|now rewrite E].
  cbn [previewUrlRef urls]. unfold revokeObjectURL.
  rewrite Hlive in *. cbn [existsb filter List.length] in *.
  rewrite N.eqb_refl. cbn [orb negb live released issued List.length].
  repeat split. lia.
Qed.

Lemma tidy_step (h : Hook) (e : Event) :
  (forall sessionId f, e <> DimensionsSettled sessionId f) ->
  Tidy h -> Tidy (step options env h e).
Proof.
  intros Hnot H.
  destruct e as [f|sid f|sid p|sid r| | |]; cbn [step].
  - unfold handleFile_begin.
    destruct (Validation.validateFile f (validation options));
      cbn [fst]; try apply tidy_setState;
      now apply tidy_cleanupPreview, tidy_bumpSession.
  - now elim (Hnot sid f).
  - unfold onProgress. destruct (compressionIdRef h =? sid); assumption.
  - unfold runCompression_end.
    destruct r; destruct (compressionIdRef h =? sid); assumption.
  - unfold reset. apply tidy_setState.
    now apply tidy_cleanupPreview, tidy_bumpSession.
  - unfold compress. destruct (file (state h)); assumption.
  - now apply tidy_cleanupPreview.
Qed.

Lemma tidy_select (f : File) (h : Hook) :
  Tidy h -> Tidy (select options env f h).
Proof.
  intros H. unfold select, handleFile_begin.
  destruct (tidy_cleanupPreview (bumpSession h) (tidy_bumpSession h H))
    as [Hc Href].
  destruct (Validation.validateFile f (validation options)); [exact Hc|].
  set (h1 := cleanupPreview (bumpSession h)) in *.
  unfold handleFile_resume.
  destruct (Validation.settle env _); [exact Hc|].
  assert (T : Tidy
    (let '(u, table) := createObjectURL (urls h1) in
     mkHook (state h1) (Some u) (compressionIdRef h1) table)).
  { destruct Hc as [Hlive Hcount]. rewrite Href in Hlive.
    unfold Tidy, createObjectURL. cbn. rewrite Hlive in *. cbn in *.
    split; [reflexivity | lia]. }
  destruct (generatePreview options), (autoCompress options);
    cbn [createObjectURL] in *; assumption.
Qed.

Lemma tidy_play (ts : list Turn) :
  forallb wellFormed ts = true ->
  forall h, Tidy h -> Tidy (fold_left (play options env) ts h).
Proof.
  induction ts as [|t ts IH]; intros Hwf h H; cbn [fold_left]; [exact H|].
  cbn [forallb] in Hwf. apply andb_true_iff in Hwf as [Ht Hts].
  apply IH; [exact Hts|].
  destruct t as [f|e]; cbn [play].
  - now apply tidy_select.
  - apply tidy_step; [|exact H].
    intros sid f ->. discriminate Ht.
Qed.

(** In the hook, over any such sequence of turns followed by teardown,
    as many handles are released as were issued, and never more than one
    is live. *)
Lemma hook_handles_balanced (ts : list Turn) :
  forallb wellFormed ts = true ->
  let h := fold_left (play options env) ts mount in
  (List.length (live (urls h)) <= 1)%nat
  /\ released (urls (step options env h Unmount))
     = issued (urls (step options env h Unmount))
  /\ live (urls (step options env h Unmount)) = [].
Proof.
  intros Hwf h.
  assert (T : Tidy h).
  { apply tidy_play; [exact Hwf|]. split; reflexivity. }
  split.
  - destruct T as [Hlive _]. rewrite Hlive.
    destruct (previewUrlRef h); cbn; lia.
  - cbn [step]. destruct (tidy_cleanupPreview h T) as [[Hlive Hcount] Href].
    rewrite Href in Hlive. rewrite Hlive in Hcount. cbn in Hcount.
    split; [lia | exact Hlive].
Qed.

End HookHandles.

(** Two selections that overlap at the dimension read: the second call
    begins while the first is suspended, and each resumption allocates a
    handle over the other's.  One handle is never released. *)
Example hook_overlapping_selections_leak :
  let h :=
    UploadHook.run previewAndCompress noBitmap UploadHook.mount
      [UploadHook.CallHandleFile file1; UploadHook.CallHandleFile file2;
       UploadHook.DimensionsSettled 1 file1;
       UploadHook.DimensionsSettled 2 file2;
       UploadHook.Unmount] in
  issued (UploadHook.urls h) = 2
  /\ released (UploadHook.urls h) = 1
  /\ live (UploadHook.urls h) = [0].
Proof. repeat split. Qed.

Section ControlHandles.

Import FileUploadControl.

Variable props : Props.
Variable imageCompression : File -> Compress.EncoderOptions -> Settled File.
Variable onUpload : File -> Settled string.

Lemma selectAndClose_urls (c : Control) (f : File) :
  multiple props = false ->
  urls (selectAndClose props imageCompression onUpload c f)
  = mkURLs (issued (urls c) + 1) (issued (urls c) :: live (urls c))
           (released (urls c)).
Proof.
  intros Hsingle. unfold selectAndClose, onDrop. now rewrite Hsingle.
Qed.

(** C5 (at the control).  In single mode, every selection allocates an
    object URL and nothing in the component revokes one: after [N]
    selections, each dismissed, and teardown, [N] handles were issued,
    none was released and all [N] are live. *)
Theorem control_never_releases_handles (files : list File)
  (Hsingle : multiple props = false) :
  let c :=
    unmount
      (fold_left (selectAndClose props imageCompression onUpload)
         files mount) in
  issued (urls c) = N.of_nat (List.length files)
  /\ released (urls c) = 0
  /\ List.length (live (urls c)) = List.length files.
Proof.
  cbv zeta. unfold unmount.
  set (pick := selectAndClose props imageCompression onUpload).
  assert (G : forall c,
    issued (urls (fold_left pick files c))
    = issued (urls c) + N.of_nat (List.length files)
    /\ released (urls (fold_left pick files c)) = released (urls c)
    /\ List.length (live (urls (fold_left pick files c)))
       = (List.length (live (urls c)) + List.length files)%nat).
  { induction files as [|f rest IH]; intros c; cbn [fold_left List.length].
    - repeat split; lia.
    - destruct (IH (pick c f)) as [Hi [Hr Hl]].
      rewrite Hi, Hr, Hl. unfold pick.
      rewrite (selectAndClose_urls c f Hsingle).
      cbn [issued released live List.length]. repeat split; lia. }
  destruct (G mount) as [Hi [Hr Hl]]. rewrite Hi, Hr, Hl. now cbn.
Qed.

End ControlHandles.

(** Two selections in single mode, then teardown: two handles, both
    still live. *)
Lemma control_never_releases_handles_witness :
  let c :=
    FileUploadControl.unmount
      (fold_left
         (FileUploadControl.selectAndClose singleMode
            (fun f _ => Fulfilled f)
            (fun _ => Fulfilled "https://cdn/x.jpg"))
         [file1; file2] FileUploadControl.mount) in
  issued (FileUploadControl.urls c) = 2
  /\ released (FileUploadControl.urls c) = 0
  /\ List.length (live (FileUploadControl.urls c)) = 2%nat.
Proof.
  exact (control_never_releases_handles singleMode (fun f _ => Fulfilled f)
           (fun _ => Fulfilled "https://cdn/x.jpg") [file1; file2] eq_refl).
Defined.

(** ** The control in multiple mode, and compression failures *)

Lemma all_rejects {A} (l : list (Settled A)) :
  (exists e, In (Rejected e) l) ->
  exists e, FileUploadControl.all l = Rejected e.
Proof.
  induction l as [|p l IH]; intros [e He]; [now elim He|].
  destruct p as [a|e']; cbn [FileUploadControl.all]; [|now exists e'].
  destruct He as [He|He]; [discriminate He|].
  destruct (IH (ex_intro _ e He)) as [e2 E]. rewrite E. now exists e2.
Qed.

Lemma all_fulfils {A} (values : list A) :
  FileUploadControl.all (map Fulfilled values) = Fulfilled values.
Proof.
  induction values as [|a values IH]; cbn; [reflexivity | now rewrite IH].
Qed.

Lemma changes_app (a b : list FileUploadControl.Effect) :
  FileUploadControl.changes (a ++ b)%list
  = (FileUploadControl.changes a ++ FileUploadControl.changes b)%list.
Proof. apply flat_map_app. Qed.

Lemma uploads_app (a b : list FileUploadControl.Effect) :
  FileUploadControl.uploads (a ++ b)%list
  = (FileUploadControl.uploads a ++ FileUploadControl.uploads b)%list.
Proof. apply flat_map_app. Qed.

Section ControlBatches.

Import FileUploadControl.

Variable props : Props.
Variable imageCompression : File -> Compress.EncoderOptions -> Settled File.
Variable onUpload : File -> Settled string.
Variable getCroppedImg : N -> Area -> Settled (option Blob).

Lemma begun_changes (acceptedFiles : list File) :
  changes
    (map snd (map (compressOrOriginal props imageCompression) acceptedFiles)
     ++ map Upload (batchUploads props imageCompression acceptedFiles))%list
  = [].
Proof.
  rewrite changes_app. unfold batchUploads, changes.
  rewrite !map_map.
  assert (A : forall l : list File,
    flat_map (fun e => match e with
                       | ChangeSingle v => [VString v]
                       | ChangeMultiple v => [VArray v]
                       | _ => []
                       end)
      (map (fun x => snd (compressOrOriginal props imageCompression x)) l)
    = []).
  { induction l as [|f l IH]; [reflexivity|]. cbn [map flat_map].
    rewrite IH. unfold compressOrOriginal.
    now destruct (compressImage imageCompression f _). }
  assert (B : forall l : list File,
    flat_map (fun e => match e with
                       | ChangeSingle v => [VString v]
                       | ChangeMultiple v => [VArray v]
                       | _ => []
                       end)
      (map (fun x => Upload (fst (compressOrOriginal props imageCompression x)))
         l) = []).
  { induction l as [|f l IH]; [reflexivity|]. cbn [map flat_map].
    now rewrite IH. }
  now rewrite A, B.
Qed.

Lemma begun_uploads (acceptedFiles : list File) :
  uploads
    (map snd (map (compressOrOriginal props imageCompression) acceptedFiles)
     ++ map Upload (batchUploads props imageCompression acceptedFiles))%list
  = batchUploads props imageCompression acceptedFiles.
Proof.
  rewrite uploads_app. unfold uploads.
  assert (A : forall l : list File,
    flat_map (fun e => match e with Upload f => [f] | _ => [] end)
      (map snd (map (compressOrOriginal props imageCompression) l)) = []).
  { induction l as [|f l IH]; [reflexivity|]. cbn [map flat_map].
    rewrite IH. unfold compressOrOriginal.
    now destruct (compressImage imageCompression f _). }
  assert (B : forall l : list File,
    flat_map (fun e => match e with Upload f => [f] | _ => [] end)
      (map Upload l) = l).
  { induction l as [|f l IH]; [reflexivity|]. cbn [map flat_map].
    now rewrite IH. }
  now rewrite A, B.
Qed.

(** C3.  In multiple mode, when the upload of at least one file of the
    batch rejects, [onChange] is not called and the committed value is
    what it was: no URL of the batch is appended. *)
Theorem batch_upload_failure_commits_nothing
  (acceptedFiles : list File) (c : Control) (before : JsValue)
  (Hmultiple : multiple props = true)
  (Hfails : exists f e,
     In f (batchUploads props imageCompression acceptedFiles)
                        /\ onUpload f = Rejected e) :
  let effects := snd (onDrop props imageCompression onUpload acceptedFiles c) in
  changes effects = []
  /\ committed before effects = before.
Proof.
  cbv zeta.
  assert (C : changes
            (snd (onDrop props imageCompression onUpload acceptedFiles c))
          = []).
  { unfold onDrop. rewrite Hmultiple.
    destruct acceptedFiles as [|f0 rest] eqn:Efiles; [reflexivity|].
    rewrite <- Efiles in *.
    fold (batchUploads props imageCompression acceptedFiles).
    destruct (all_rejects
                (map onUpload
                   (batchUploads props imageCompression acceptedFiles)))
      as [e2 Hall].
    { destruct Hfails as [f [e [Hin Hrej]]]. exists e.
      rewrite <- Hrej. now apply in_map. }
    rewrite Hall. cbn [snd]. rewrite changes_app, begun_changes.
    reflexivity. }
  split; [exact C|]. unfold committed. now rewrite C.
Qed.

(** C6.  In multiple mode, when the committed value is the list [V] and
    the uploads of the batch fulfil with [U1..Uk], the committed value
    becomes [V] followed by [U1..Uk]; for a non-empty batch through one
    call of [onChange]. *)
Theorem batch_success_appends
  (acceptedFiles : list File) (c : Control) (V U : list string)
  (Hmultiple : multiple props = true)
  (Hvalue : value props = VArray V)
  (Huploads : map onUpload (batchUploads props imageCompression acceptedFiles)
              = map Fulfilled U) :
  let effects := snd (onDrop props imageCompression onUpload acceptedFiles c) in
  committed (VArray V) effects = VArray (V ++ U)%list
  /\ (acceptedFiles <> [] -> changes effects = [VArray (V ++ U)%list]).
Proof.
  cbv zeta. unfold onDrop. rewrite Hmultiple.
  destruct acceptedFiles as [|f0 rest] eqn:Efiles.
  - cbn in Huploads. destruct U; [|discriminate Huploads].
    rewrite app_nil_r. split; [reflexivity | congruence].
  - rewrite <- Efiles in *.
    fold (batchUploads props imageCompression acceptedFiles).
    rewrite Huploads, all_fulfils, Hvalue. cbn [snd].
    assert (C : changes
      ((map snd (map (compressOrOriginal props imageCompression)
                   acceptedFiles)
        ++ map Upload (batchUploads props imageCompression acceptedFiles))
       ++ [ChangeMultiple (V ++ U);
           ToastSuccess (showN (N.of_nat (List.length U))
                         ++ " gambar berhasil diupload")%string])%list
      = [VArray (V ++ U)%list]).
    { rewrite changes_app, begun_changes. reflexivity. }
    split; [|intros _; exact C].
    unfold committed. rewrite C. reflexivity.
Qed.


End ControlBatches.

(** A batch of two whose second upload rejects: the list stays as it
    was, although the first upload fulfilled. *)
Lemma batch_upload_failure_commits_nothing_witness :
  let effects :=
    snd (FileUploadControl.onDrop multipleMode halving refusingTwo
           [file1; file2] FileUploadControl.mount) in
  FileUploadControl.changes effects = []
  /\ FileUploadControl.committed
       (FileUploadControl.VArray ["https://cdn/0.jpg"]) effects
     = FileUploadControl.VArray ["https://cdn/0.jpg"].
Proof.
  apply (batch_upload_failure_commits_nothing multipleMode halving
           refusingTwo [file1; file2] FileUploadControl.mount
           (FileUploadControl.VArray ["https://cdn/0.jpg"]) eq_refl).
  exists (mkFile "two.png" "image/png" 4096 112), (ErrorObject "503").
  split; [right; left; reflexivity | reflexivity].
Defined.

(** A batch of two whose uploads both fulfil: the two URLs follow the
    one already committed. *)
Lemma batch_success_appends_witness :
  let effects :=
    snd (FileUploadControl.onDrop multipleMode halving storing
           [file1; file2] FileUploadControl.mount) in
  FileUploadControl.committed
    (FileUploadControl.VArray ["https://cdn/0.jpg"]) effects
  = FileUploadControl.VArray
      ["https://cdn/0.jpg"; "https://cdn/one.png"; "https://cdn/two.png"]
  /\ ([file1; file2] <> [] ->
      FileUploadControl.changes effects
      = [FileUploadControl.VArray
           ["https://cdn/0.jpg"; "https://cdn/one.png";
            "https://cdn/two.png"]]).
Proof.
  exact (batch_success_appends multipleMode halving storing
           [file1; file2] FileUploadControl.mount
           ["https://cdn/0.jpg"]
           ["https://cdn/one.png"; "https://cdn/two.png"]
           eq_refl eq_refl eq_refl).
Defined.



(** * Further properties of the helpers *)

(** The unit index that [formatFileSize] computes brackets the size
    between two powers of 1024. *)
Lemma unit_index_brackets (bytes : N) :
  0 < bytes ->
  1024 ^ (N.log2 bytes / 10) <= bytes < 1024 ^ (N.log2 bytes / 10 + 1).
Proof.
  intros Hpos.
  destruct (N.log2_spec bytes Hpos) as [Hlo Hhi].
  change 1024 with (2 ^ 10). rewrite <- !N.pow_mul_r. split.
  - etransitivity; [|exact Hlo].
    apply N.pow_le_mono_r; [discriminate|].
    apply N.Div0.mul_div_le.
  - eapply N.lt_le_trans; [exact Hhi|].
    apply N.pow_le_mono_r; [discriminate|].
    apply N.le_succ_l. rewrite N.add_1_r.
    apply N.mul_succ_div_gt. discriminate.
Qed.

(** X1.  For a size from 1 byte up to, but not including, 1024^4 bytes,
    [formatFileSize] prints a unit of the table, the one whose power of
    1024 brackets the size, and a number between 1 and 1024 that is the
    size in that unit rounded to the nearest tenth. *)
Theorem formatFileSize_in_table (bytes : N)
  (Hpos : 0 < bytes) (Hsmall : bytes < 1024 ^ 4) :
  exists (i : nat) (tenths : N),
    (i < 4)%nat
    /\ 1024 ^ N.of_nat i <= bytes < 1024 ^ (N.of_nat i + 1)
    /\ 10 <= tenths <= 10240
    /\ 2 * tenths * 1024 ^ N.of_nat i <= 20 * bytes + 1024 ^ N.of_nat i
       < 2 * (tenths + 1) * 1024 ^ N.of_nat i
    /\ Compress.formatFileSize bytes
       = Compress.showTenths tenths ++ " "
         ++ nth i Compress.units "undefined"
    /\ In (nth i Compress.units "undefined") Compress.units.
Proof.
  pose proof (unit_index_brackets bytes Hpos) as [Hlo Hhi].
  set (k := N.log2 bytes / 10) in *.
  assert (Hk : k < 4).
  { destruct (N.lt_ge_cases k 4) as [H|H]; [exact H|].
    exfalso. apply (N.pow_le_mono_r 1024) in H; [lia | discriminate]. }
  set (d := 1024 ^ k) in *.
  assert (Hd : 0 < d) by (apply N.neq_0_lt_0, N.pow_nonzero; discriminate).
  assert (Hhi' : bytes < 1024 * d).
  { unfold d. rewrite N.add_1_r, N.pow_succ_r' in Hhi. exact Hhi. }
  set (t := (20 * bytes + d) / (2 * d)).
  assert (Ht : 2 * d * t <= 20 * bytes + d < 2 * d * (t + 1)).
  { unfold t. split.
    - apply N.Div0.mul_div_le.
    - rewrite N.add_1_r. apply N.mul_succ_div_gt. lia. }
  exists (N.to_nat k), t. rewrite N2Nat.id. fold d.
  assert (Hunit : In (nth (N.to_nat k) Compress.units "undefined")
                     Compress.units).
  { apply nth_In. cbn. lia. }
  repeat split; try lia; try nia; try exact Hunit.
  unfold Compress.formatFileSize.
  destruct (N.eqb_spec bytes 0) as [E|_]; [lia|]. reflexivity.
Qed.

(** One and a half kibibytes. *)
Lemma formatFileSize_in_table_witness :
  exists (i : nat) (tenths : N),
    (i < 4)%nat
    /\ 1024 ^ N.of_nat i <= 1536 < 1024 ^ (N.of_nat i + 1)
    /\ 10 <= tenths <= 10240
    /\ 2 * tenths * 1024 ^ N.of_nat i <= 20 * 1536 + 1024 ^ N.of_nat i
       < 2 * (tenths + 1) * 1024 ^ N.of_nat i
    /\ Compress.formatFileSize 1536
       = Compress.showTenths tenths ++ " "
         ++ nth i Compress.units "undefined"
    /\ In (nth i Compress.units "undefined") Compress.units.
Proof.
  apply (formatFileSize_in_table 1536); reflexivity.
Defined.

(** X2.  From 1024^4 bytes on, the unit index runs past the table and
    [formatFileSize] prints the word [undefined] in place of a unit. *)
Theorem formatFileSize_past_table (bytes : N)
  (Hlarge : 1024 ^ 4 <= bytes) :
  exists tenths,
    Compress.formatFileSize bytes
    = Compress.showTenths tenths ++ " undefined".
Proof.
  assert (Hpos : 0 < bytes).
  { eapply N.lt_le_trans; [|exact Hlarge]. reflexivity. }
  pose proof (unit_index_brackets bytes Hpos) as [_ Hhi].
  set (k := N.log2 bytes / 10) in *.
  assert (Hk : 4 <= k).
  { destruct (N.lt_ge_cases k 4) as [H|H]; [|exact H].
    exfalso. assert (H' : k + 1 <= 4) by lia.
    apply (N.pow_le_mono_r 1024) in H'; [lia | discriminate]. }
  exists ((20 * bytes + 1024 ^ k) / (2 * 1024 ^ k)).
  unfold Compress.formatFileSize.
  destruct (N.eqb_spec bytes 0) as [E|_]; [lia|].
  cbv zeta. fold k. rewrite nth_overflow; [reflexivity|]. cbn. lia.
Qed.

(** One tebibyte. *)
Lemma formatFileSize_past_table_witness :
  exists tenths,
    Compress.formatFileSize (1024 ^ 4)
    = Compress.showTenths tenths ++ " undefined"
  /\ Compress.formatFileSize (1024 ^ 4) = "1 undefined".
Proof.
  destruct (formatFileSize_past_table (1024 ^ 4)) as [t Ht].
  - apply N.le_refl.
  - exists t. split; [exact Ht | reflexivity].
Defined.

(** X3.  Whatever the encoder returns, a result of [compressImage]
    reports the input's size as [originalSize] and the returned file's
    size as [compressedSize]; a skipped result carries the input file
    itself; and unless a conversion to another MIME type was requested,
    the returned file is never larger than the input, and strictly
    smaller when not skipped. *)
Theorem compressImage_result_consistent
  (imageCompression : File -> Compress.EncoderOptions -> Settled File)
  (f : File) (o : Compress.CompressOptions) (r : Compress.CompressResult)
  (Hresult : Compress.compressImage imageCompression f o = Fulfilled r) :
  Compress.originalSize r = fsize f
  /\ Compress.compressedSize r = fsize (Compress.file r)
  /\ (Compress.wasSkipped r = true -> Compress.file r = f)
  /\ (~ ConversionRequested f o ->
      fsize (Compress.file r) <= fsize f
      /\ (Compress.wasSkipped r = false ->
          fsize (Compress.file r) < fsize f)).
Proof.
  unfold Compress.compressImage in Hresult.
  destruct (imageCompression f (Compress.mergedOptions o)) as [encoded|e];
    [|discriminate Hresult].
  destruct (N.leb_spec (fsize f) (fsize encoded)) as [Hle|Hlt];
    destruct (Compress.isFormatForced f o) eqn:Hforced;
    cbn [andb negb] in Hresult; injection Hresult as <-;
    cbn [Compress.originalSize Compress.compressedSize Compress.file
         Compress.wasSkipped];
    (split; [reflexivity|]); (split; [reflexivity|]);
    (split; [try reflexivity; try discriminate|]);
    intros Hconv;
    try (exfalso; apply Hconv; now apply isFormatForced_spec);
    (split; [lia | try discriminate; intros _; lia]).
Qed.

Lemma compressImage_result_consistent_witness :
  let r := Compress.mkResult png100KB 122880 102400
             (Compress.RatioOf 102400 122880) false in
  Compress.originalSize r = fsize png120KB
  /\ Compress.compressedSize r = fsize (Compress.file r)
  /\ (Compress.wasSkipped r = true -> Compress.file r = png120KB)
  /\ (~ ConversionRequested png120KB Compress.noOptions ->
      fsize (Compress.file r) <= fsize png120KB
      /\ (Compress.wasSkipped r = false ->
          fsize (Compress.file r) < fsize png120KB)).
Proof.
  exact (compressImage_result_consistent (fun _ _ => Fulfilled png100KB)
           png120KB Compress.noOptions _ eq_refl).
Defined.

(** X4.  [compressImage] rejects exactly when the encoder does, always
    with an [Error] whose message is [Image compression failed: ]
    followed by the encoder's message, or by
    [Unknown compression error] when the encoder threw something else. *)
Theorem compressImage_rejection
  (imageCompression : File -> Compress.EncoderOptions -> Settled File)
  (f : File) (o : Compress.CompressOptions) :
  (forall thrown,
     Compress.compressImage imageCompression f o = Rejected thrown ->
     exists cause,
       imageCompression f (Compress.mergedOptions o) = Rejected cause
       /\ thrown = ErrorObject
                     ("Image compression failed: "
                      ++ match cause with
                         | ErrorObject m => m
                         | NonError _ => "Unknown compression error"
                         end))
  /\
  (forall cause,
     imageCompression f (Compress.mergedOptions o) = Rejected cause ->
     exists message,
       Compress.compressImage imageCompression f o
       = Rejected (ErrorObject ("Image compression failed: " ++ message))).
Proof.
  unfold Compress.compressImage. split.
  - intros thrown H.
    destruct (imageCompression f (Compress.mergedOptions o)) as [enc|cause].
    + destruct ((fsize f <=? fsize enc)
                && negb (Compress.isFormatForced f o)); discriminate H.
    + exists cause. split; [reflexivity|]. now injection H as <-.
  - intros cause ->. eexists. reflexivity.
Qed.

Lemma compressImage_rejection_witness :
  exists message,
    Compress.compressImage failing file1 Compress.noOptions
    = Rejected (ErrorObject ("Image compression failed: " ++ message)).
Proof.
  exact (proj2 (compressImage_rejection failing file1 Compress.noOptions)
           (ErrorObject "decode failed") eq_refl).
Defined.

(** X5.  [getImageDimensions] rejects only when the image element fails
    to load, and then with [Failed to load image dimensions]: a missing
    or failing [createImageBitmap] alone never makes it reject; and when
    the bitmap decoder succeeds its size is the answer. *)
Theorem getImageDimensions_fallback (env : Compress.Decoders) (f : File) :
  (forall thrown,
     Compress.getImageDimensions env f = Rejected thrown ->
     Compress.loadImageElement env f = None
     /\ thrown = ErrorObject "Failed to load image dimensions")
  /\
  (forall size,
     Compress.loadImageElement env f = Some size ->
     exists answer, Compress.getImageDimensions env f = Fulfilled answer)
  /\
  (forall decode size,
     Compress.createImageBitmap env = Some decode ->
     decode f = Fulfilled size ->
     Compress.getImageDimensions env f = Fulfilled size).
Proof.
  unfold Compress.getImageDimensions. split; [|split].
  - intros thrown.
    destruct (Compress.createImageBitmap env) as [decode|];
      [destruct (decode f)|];
      destruct (Compress.loadImageElement env f);
      intros H; try discriminate H; injection H as <-; split; reflexivity.
  - intros size Hload.
    destruct (Compress.createImageBitmap env) as [decode|];
      [destruct (decode f)|]; rewrite ?Hload; eexists; reflexivity.
  - intros decode size -> ->. reflexivity.
Qed.

(** A decoder that always fails beside an image element that loads. *)
Lemma getImageDimensions_fallback_witness :
  exists answer,
    Compress.getImageDimensions
      (Compress.mkDecoders (Some (fun _ => Rejected (NonError "decode")))
                           (fun _ => Some (640, 480))) file1
    = Fulfilled answer.
Proof.
  exact (proj1 (proj2 (getImageDimensions_fallback
                         (Compress.mkDecoders
                            (Some (fun _ => Rejected (NonError "decode")))
                            (fun _ => Some (640, 480))) file1))
           (640, 480) eq_refl).
Defined.

(** * Further properties of validation *)

Lemma includes_In (types : list string) (s : string) :
  Validation.includes types s = true <-> In s types.
Proof.
  unfold Validation.includes. rewrite existsb_exists. split.
  - intros [x [Hin Heq]]. apply String.eqb_eq in Heq. now subst.
  - intros Hin. exists s. split; [exact Hin | apply String.eqb_refl].
Qed.

(** X6.  With neither [maxSizeMB] nor [allowedTypes] given, [validateFile]
    accepts exactly the files whose type is one of the four default MIME
    types and whose size is at most 10 * 1024 * 1024 bytes, that size
    included. *)
Theorem validateFile_defaults (f : File)
  (options : Validation.ValidationOptions)
  (Hsize : Validation.maxSizeMB options = Absent)
  (Htypes : Validation.allowedTypes options = Absent) :
  Validation.validateFile f options = None
  <-> In (ftype f) defaultTypes /\ fsize f <= 10 * 1024 * 1024.
Proof.
  unfold Validation.validateFile. rewrite Hsize, Htypes.
  cbn [spread Validation.maxSizeMB Validation.allowedTypes
       Validation.DEFAULT_VALIDATION Validation.truthyList Validation.listed
       truthyN Validation.bound andb].
  change (negb (10 =? 0)) with true. cbn [andb].
  fold defaultTypes. split.
  - intros H.
    destruct (Compress.isImageFile f); [|discriminate H]. cbn [negb] in H.
    destruct (Validation.includes defaultTypes (ftype f)) eqn:Hin;
      [|discriminate H]. cbn [negb] in H.
    destruct (N.ltb_spec (10 * 1024 * 1024) (fsize f)) as [Hlt|Hle];
      [discriminate H|].
    split; [now apply includes_In | exact Hle].
  - intros [Hin Hle].
    assert (Himg : Compress.isImageFile f = true).
    { unfold Compress.isImageFile.
      destruct Hin as [<-|[<-|[<-|[<-|[]]]]]; reflexivity. }
    rewrite Himg. cbn [negb].
    apply includes_In in Hin. rewrite Hin. cbn [negb].
    apply N.ltb_ge in Hle. now rewrite Hle.
Qed.

(** A PNG of exactly 10 MiB passes; one byte more does not. *)
Lemma validateFile_defaults_witness :
  Validation.validateFile png10MB Validation.noValidation = None
  /\ Validation.validateFile
       (mkFile "edge.png" "image/png" (10 * 1024 * 1024 + 1) 6)
       Validation.noValidation <> None.
Proof.
  split.
  - apply (validateFile_defaults png10MB Validation.noValidation
             eq_refl eq_refl).
    split; [right; left; reflexivity | apply N.le_refl].
  - intros H.
    apply (validateFile_defaults _ Validation.noValidation eq_refl eq_refl)
      in H.
    destruct H as [_ H]. vm_compute in H. now apply H.
Defined.

(** X7.  For an image whose dimensions were read as [width] by
    [height], [validateDimensions] accepts exactly when every configured
    bound holds, a dimension equal to its bound included; a bound of [0]
    counts as not configured. *)
Theorem validateDimensions_accepts_iff
  (env : Compress.Decoders) (f : File)
  (options : Validation.ValidationOptions) (width height : N)
  (Hread : Compress.getImageDimensions env f = Fulfilled (width, height)) :
  Validation.settle env (Validation.validateDimensions f options) = None
  <-> withinBounds options width height.
Proof.
  unfold Validation.validateDimensions, withinBounds, configured.
  destruct (truthyN (Validation.minWidth options)) eqn:E1;
    destruct (truthyN (Validation.minHeight options)) eqn:E2;
    destruct (truthyN (Validation.maxWidth options)) eqn:E3;
    destruct (truthyN (Validation.maxHeight options)) eqn:E4;
    cbn [negb andb Validation.settle]; rewrite ?Hread, ?E1, ?E2, ?E3, ?E4;
    cbn [andb];
    repeat match goal with
           | |- context [?a <? ?b] => destruct (N.ltb_spec a b)
           end;
    split; intros Hyp; try discriminate Hyp; try reflexivity;
    try (repeat split; intros; try discriminate; lia);
    try (exfalso; destruct Hyp as [B1 [B2 [B3 B4]]];
         try specialize (B1 eq_refl); try specialize (B2 eq_refl);
         try specialize (B3 eq_refl); try specialize (B4 eq_refl); lia).
Qed.

(** A 640 by 9000 image against a width of 640 to 1920, a minimum
    height of [0] and no maximum height. *)
Lemma validateDimensions_accepts_iff_witness :
  Validation.settle (fixedSize (640, 9000))
    (Validation.validateDimensions file1 between640and1920) = None.
Proof.
  apply (validateDimensions_accepts_iff (fixedSize (640, 9000)) file1
           between640and1920 640 9000 eq_refl).
  unfold withinBounds, configured. cbn.
  repeat split; intros; try discriminate; lia.
Defined.

(** * Further properties of the hook *)

Section HookFurther.

Import UploadHook.

Variable options : UseImageUploadOptions.
Variable env : Compress.Decoders.

Lemma previewUrlRef_cleanupPreview (h : Hook) :
  previewUrlRef (cleanupPreview h) = None.
Proof.
  unfold cleanupPreview.
  destruct (previewUrlRef h) eqn:E; [reflexivity | exact E].
Qed.

Lemma state_cleanupPreview (h : Hook) : state (cleanupPreview h) = state h.
Proof. unfold cleanupPreview. now destruct (previewUrlRef h). Qed.

(** X8.  After [reset], whatever the compressions begun before it still
    report, progress or settlement, in any number and order, the
    instance stays as [reset] left it: the initial state, no preview
    handle held. *)
Theorem reset_discards_earlier_sessions (h : Hook) (es : list Event)
  (Hearlier : Forall (fun e => exists sessionId,
                        resolves sessionId e = true
                        /\ sessionId <= compressionIdRef h) es) :
  run options env (reset h) es = reset h
  /\ state (reset h) = INITIAL_STATE
  /\ previewUrlRef (reset h) = None.
Proof.
  split.
  - induction Hearlier as [|e es [sid [He Hle]] _ IH];
      cbn [run fold_left]; [reflexivity|].
    rewrite (stale_resolution_dropped options env (reset h) sid e);
      [exact IH | | exact He].
    unfold reset. cbn [setState compressionIdRef].
    rewrite compressionIdRef_cleanupPreview. cbn. lia.
  - split; [reflexivity|].
    unfold reset. cbn [setState previewUrlRef].
    apply previewUrlRef_cleanupPreview.
Qed.

Lemma tidy_resume (sessionId : N) (f : File) (h : Hook) :
  Tidy h -> previewUrlRef h = None ->
  Tidy (handleFile_resume options env sessionId f h).
Proof.
  intros [Hlive Hcount] Href. rewrite Href in Hlive.
  unfold handleFile_resume.
  destruct (Validation.settle env _); [split; cbn; now rewrite ?Href|].
  destruct (generatePreview options), (autoCompress options);
    unfold Tidy, createObjectURL; cbn; rewrite ?Href, ?Hlive in *;
    cbn in *; split; try reflexivity; lia.
Qed.

Lemma shown_resume (sessionId : N) (f : File) (h : Hook) :
  previewUrlRef h = None ->
  Shown (handleFile_resume options env sessionId f h).
Proof.
  intros Href. unfold Shown, handleFile_resume.
  destruct (Validation.settle env _); [cbn; now rewrite Href|].
  destruct (generatePreview options), (autoCompress options);
    cbn; now rewrite ?Href.
Qed.

Lemma kept_step (u u' : Usage) (h : Hook) (e : Event) :
  Kept u h -> track options u e = Some u' ->
  Kept u' (step options env h e).
Proof.
  intros [Htidy [Hheld Hstale]] Htrack.
  destruct e as [f|sid f|sid p|sid r| | |]; cbn [track] in Htrack.
  - injection Htrack as <-. split; [|split].
    + apply (tidy_step options env); [intros ? ?; discriminate | exact Htidy].
    + intros _. cbn [step]. unfold handleFile_begin.
      destruct (Validation.validateFile f (validation options));
        cbn [fst setState previewUrlRef];
        apply previewUrlRef_cleanupPreview.
    + cbn [stale step]. unfold handleFile_begin, Shown.
      destruct (Validation.validateFile f (validation options));
        [|discriminate].
      intros _. cbn [fst setState state preview previewUrlRef].
      now rewrite previewUrlRef_cleanupPreview.
  - destruct (held u) eqn:E; [discriminate Htrack|].
    injection Htrack as <-. cbn [step]. split; [|split].
    + apply tidy_resume; [exact Htidy | now apply Hheld].
    + discriminate.
    + intros _. apply shown_resume. now apply Hheld.
  - injection Htrack as <-. cbn [step]. unfold onProgress.
    destruct (compressionIdRef h =? sid);
      (split; [exact Htidy | split; [exact Hheld | exact Hstale]]).
  - injection Htrack as <-. cbn [step]. unfold runCompression_end.
    destruct r; destruct (compressionIdRef h =? sid);
      (split; [exact Htidy | split; [exact Hheld | exact Hstale]]).
  - injection Htrack as <-. split; [|split].
    + apply (tidy_step options env); [intros ? ?; discriminate | exact Htidy].
    + intros _. cbn [step]. unfold reset. cbn [setState previewUrlRef].
      apply previewUrlRef_cleanupPreview.
    + intros _. cbn [step]. unfold reset, Shown.
      cbn [setState state preview previewUrlRef INITIAL_STATE].
      now rewrite previewUrlRef_cleanupPreview.
  - injection Htrack as <-. cbn [step]. unfold compress.
    destruct (file (state h));
      (split; [exact Htidy | split; [exact Hheld | exact Hstale]]).
  - discriminate Htrack.
Qed.

Lemma kept_run (es : list Event) :
  forall (u u' : Usage) (h : Hook),
    Kept u h -> trackAll options u es = Some u' ->
    Kept u' (run options env h es).
Proof.
  induction es as [|e es IH]; intros u u' h Hkept Htrack;
    cbn [trackAll run fold_left] in *.
  - now injection Htrack as <-.
  - destruct (track options u e) as [u1|] eqn:E; [|discriminate Htrack].
    apply (IH u1 u'); [|exact Htrack].
    now apply (kept_step u u1).
Qed.

Lemma kept_mount : Kept fresh mount.
Proof. repeat split. Qed.

(** X9.  Over any history of the mounted hook in which selections do
    not overlap, at every point where no selection is waiting for its
    dimension check, the preview URL in the state is not a revoked one:
    when the state shows a preview it is the one live preview URL, and
    when it shows none no preview URL is live. *)
Theorem preview_shown_is_live (es : list Event) (u : Usage)
  (Htrack : trackAll options fresh es = Some u)
  (Hsettled : stale u = false) :
  let h := run options env mount es in
  match preview (state h) with
  | Some p => live (urls h) = [p]
  | None => live (urls h) = []
  end.
Proof.
  intros h.
  destruct (kept_run es fresh u mount kept_mount Htrack)
    as [[Hlive _] [_ Hshown]].
  fold h in Hlive, Hshown. specialize (Hshown Hsettled).
  unfold Shown in Hshown. rewrite Hshown.
  destruct (previewUrlRef h); exact Hlive.
Qed.

(** X12.  Over any history of the mounted hook in which selections do
    not overlap, never more than one preview URL is live; and at the
    moment the hook is then unmounted, as many preview URLs have been
    released as were created and none is live.  What a continuation of
    [handleFile] does when it runs after the unmount is outside this
    statement. *)
Theorem hook_previews_balanced (es : list Event) (u : Usage)
  (Htrack : trackAll options fresh es = Some u) :
  let h := run options env mount es in
  (List.length (live (urls h)) <= 1)%nat
  /\ released (urls (step options env h Unmount))
     = issued (urls (step options env h Unmount))
  /\ live (urls (step options env h Unmount)) = [].
Proof.
  intros h.
  destruct (kept_run es fresh u mount kept_mount Htrack) as [Htidy _].
  fold h in Htidy. split.
  - destruct Htidy as [Hlive _]. rewrite Hlive.
    destruct (previewUrlRef h); cbn; lia.
  - cbn [step].
    destruct (tidy_cleanupPreview h Htidy) as [[Hlive Hcount] Href].
    rewrite Href in Hlive. rewrite Hlive in Hcount. cbn in Hcount.
    split; [lia | exact Hlive].
Qed.

(** X10.  While a new selection that passed [validateFile] waits for its
    dimension check, the state still shows the previous preview URL,
    which [handleFile] has already revoked. *)
Theorem preview_revoked_while_validating (h : Hook) (f : File) (u : N)
  (Htidy : Tidy h)
  (Href : previewUrlRef h = Some u)
  (Hshown : preview (state h) = Some u)
  (Hvalid : Validation.validateFile f (validation options) = None) :
  let h' := step options env h (CallHandleFile f) in
  preview (state h') = Some u
  /\ ~ In u (live (urls h'))
  /\ released (urls h') = released (urls h) + 1.
Proof.
  cbv zeta. cbn [step]. unfold handleFile_begin. rewrite Hvalid. cbn [fst].
  destruct Htidy as [Hlive _]. rewrite Href in Hlive.
  unfold cleanupPreview, bumpSession. cbn [previewUrlRef].
  rewrite Href. cbn [state urls]. unfold revokeObjectURL.
  rewrite Hlive. cbn [existsb filter]. rewrite N.eqb_refl.
  cbn [orb negb live released]. repeat split; [exact Hshown | intros []].
Qed.

(** X11.  The continuation of [handleFile] is not guarded by the session
    id.  Resumed for a superseded session with a file that passes the
    dimension check, it installs that file and, under [autoCompress],
    marks the hook as compressing; the compression it starts reports
    under the superseded id, so nothing it reports is applied and the
    hook stays compressing. *)
Theorem superseded_resume_takes_over (h : Hook) (sessionId : N) (f : File)
  (Hstale : sessionId <> compressionIdRef h)
  (Hdims : Validation.settle env
             (Validation.validateDimensions f (validation options)) = None)
  (Hauto : autoCompress options = true) :
  let h' := handleFile_resume options env sessionId f h in
  file (state h') = Some f
  /\ isCompressing (state h') = true
  /\ forall e, resolves sessionId e = true -> step options env h' e = h'.
Proof.
  cbv zeta.
  assert (Hid : compressionIdRef (handleFile_resume options env sessionId f h)
                = compressionIdRef h).
  { unfold handleFile_resume. rewrite Hdims, Hauto.
    now destruct (generatePreview options). }
  repeat split.
  - unfold handleFile_resume. rewrite Hdims, Hauto.
    now destruct (generatePreview options).
  - unfold handleFile_resume. rewrite Hdims, Hauto.
    now destruct (generatePreview options).
  - intros e He.
    apply (stale_resolution_dropped options env _ sessionId); [|exact He].
    rewrite Hid. congruence.
Qed.

End HookFurther.

(** A file is compressing when [reset] is called; its compression then
    reports progress and completes. *)
Lemma reset_discards_earlier_sessions_witness :
  let h := UploadHook.select previewAndCompress noBitmap file1
             UploadHook.mount in
  UploadHook.state
    (UploadHook.run previewAndCompress noBitmap (UploadHook.reset h)
       [UploadHook.CompressionProgress 1 40;
        UploadHook.CompressionSettled 1 (Fulfilled result1)])
  = UploadHook.INITIAL_STATE.
Proof.
  cbv zeta.
  destruct (reset_discards_earlier_sessions previewAndCompress noBitmap
              (UploadHook.select previewAndCompress noBitmap file1
                 UploadHook.mount)
              [UploadHook.CompressionProgress 1 40;
               UploadHook.CompressionSettled 1 (Fulfilled result1)])
    as [Hrun [Hstate _]].
  - repeat constructor; exists 1; split; reflexivity || discriminate.
  - rewrite Hrun. exact Hstate.
Defined.

(** File 1 is selected and compressed, the hook is reset, file 2 is
    selected: each call and its continuation are turns of their own. *)
Lemma preview_shown_is_live_witness :
  let h :=
    UploadHook.run previewAndCompress noBitmap UploadHook.mount
      [UploadHook.CallHandleFile file1; UploadHook.DimensionsSettled 1 file1;
       UploadHook.CompressionSettled 1 (Fulfilled result1);
       UploadHook.CallReset;
       UploadHook.CallHandleFile file2;
       UploadHook.DimensionsSettled 3 file2] in
  match UploadHook.preview (UploadHook.state h) with
  | Some p => live (UploadHook.urls h) = [p]
  | None => live (UploadHook.urls h) = []
  end.
Proof.
  exact (preview_shown_is_live previewAndCompress noBitmap
           [UploadHook.CallHandleFile file1;
            UploadHook.DimensionsSettled 1 file1;
            UploadHook.CompressionSettled 1 (Fulfilled result1);
            UploadHook.CallReset;
            UploadHook.CallHandleFile file2;
            UploadHook.DimensionsSettled 3 file2]
           (mkUsage true false) eq_refl eq_refl).
Defined.

(** Two selections one after the other, a reset while a third waits for
    its dimension check, then teardown. *)
Lemma hook_previews_balanced_witness :
  let h :=
    UploadHook.run previewAndCompress noBitmap UploadHook.mount
      [UploadHook.CallHandleFile file1; UploadHook.DimensionsSettled 1 file1;
       UploadHook.CallHandleFile file2; UploadHook.DimensionsSettled 2 file2;
       UploadHook.CallHandleFile file1; UploadHook.CallReset;
       UploadHook.DimensionsSettled 3 file1] in
  (List.length (live (UploadHook.urls h)) <= 1)%nat
  /\ released
       (UploadHook.urls
          (UploadHook.step previewAndCompress noBitmap h UploadHook.Unmount))
     = issued
         (UploadHook.urls
            (UploadHook.step previewAndCompress noBitmap h
               UploadHook.Unmount))
  /\ live
       (UploadHook.urls
          (UploadHook.step previewAndCompress noBitmap h UploadHook.Unmount))
     = [].
Proof.
  exact (hook_previews_balanced previewAndCompress noBitmap
           [UploadHook.CallHandleFile file1;
            UploadHook.DimensionsSettled 1 file1;
            UploadHook.CallHandleFile file2;
            UploadHook.DimensionsSettled 2 file2;
            UploadHook.CallHandleFile file1; UploadHook.CallReset;
            UploadHook.DimensionsSettled 3 file1]
           (mkUsage true false) eq_refl).
Defined.

(** File 1 is shown; file 2 is selected. *)
Lemma preview_revoked_while_validating_witness :
  let h := UploadHook.select previewAndCompress noBitmap file1
             UploadHook.mount in
  let h' := UploadHook.step previewAndCompress noBitmap h
              (UploadHook.CallHandleFile file2) in
  UploadHook.preview (UploadHook.state h') = Some 0
  /\ ~ In 0 (live (UploadHook.urls h'))
  /\ released (UploadHook.urls h') = released (UploadHook.urls h) + 1.
Proof.
  apply (preview_revoked_while_validating previewAndCompress noBitmap
           (UploadHook.select previewAndCompress noBitmap file1
              UploadHook.mount) file2 0);
    [split; reflexivity | reflexivity | reflexivity | reflexivity].
Defined.

(** File 2 was selected while file 1 waited for its dimension check;
    file 1's continuation runs last. *)
Lemma superseded_resume_takes_over_witness :
  let h :=
    UploadHook.run previewAndCompress noBitmap UploadHook.mount
      [UploadHook.CallHandleFile file1; UploadHook.CallHandleFile file2;
       UploadHook.DimensionsSettled 2 file2] in
  let h' := UploadHook.handleFile_resume previewAndCompress noBitmap 1
              file1 h in
  UploadHook.file (UploadHook.state h') = Some file1
  /\ UploadHook.isCompressing (UploadHook.state h') = true
  /\ forall e, UploadHook.resolves 1 e = true ->
               UploadHook.step previewAndCompress noBitmap h' e = h'.
Proof.
  apply (superseded_resume_takes_over previewAndCompress noBitmap);
    [discriminate | reflexivity | reflexivity].
Defined.


(** * Further properties of the control *)

(** Without a requested output type, what [compressImage] returns is
    never larger than its input. *)
Lemma compressImage_no_larger
  (imageCompression : File -> Compress.EncoderOptions -> Settled File)
  (f : File) (o : Compress.CompressOptions) (r : Compress.CompressResult) :
  Compress.fileType o = None ->
  Compress.compressImage imageCompression f o = Fulfilled r ->
  fsize (Compress.file r) <= fsize f.
Proof.
  unfold Compress.compressImage, Compress.isFormatForced. intros -> H.
  destruct (imageCompression f (Compress.mergedOptions o)) as [encoded|e];
    [|discriminate H].
  destruct (N.leb_spec (fsize f) (fsize encoded)) as [Hle|Hlt];
    cbn [andb negb] in H; injection H as <-; cbn [Compress.file]; lia.
Qed.

Section ControlFurther.

Import FileUploadControl.

Variable props : Props.
Variable imageCompression : File -> Compress.EncoderOptions -> Settled File.
Variable onUpload : File -> Settled string.
Variable getCroppedImg : N -> Area -> Settled (option Blob).

(** X13.  In multiple mode, removing a URL commits the list without any
    occurrence of it: every copy goes, every other entry stays as often
    as it was there, and removing a URL that is not in the list commits
    the list unchanged. *)
Theorem handleRemove_drops_every_occurrence
  (urlToRemove : string) (l : list string)
  (Hmultiple : multiple props = true)
  (Hvalue : value props = VArray l) :
  exists kept,
    handleRemove props urlToRemove = [ChangeMultiple kept]
    /\ ~ In urlToRemove kept
    /\ (forall u, u <> urlToRemove ->
                  count_occ string_dec kept u = count_occ string_dec l u)
    /\ (~ In urlToRemove l -> kept = l).
Proof.
  unfold handleRemove. rewrite Hmultiple, Hvalue. clear Hvalue.
  eexists. split; [reflexivity|]. split; [|split].
  - intros Hin. apply filter_In in Hin as [_ Hne].
    now rewrite String.eqb_refl in Hne.
  - intros u Hu. induction l as [|a rest IH]; [reflexivity|].
    cbn [filter]. destruct (String.eqb_spec a urlToRemove) as [->|Hne];
      cbn [negb count_occ].
    + destruct (string_dec urlToRemove u); [congruence | exact IH].
    + destruct (string_dec a u); [now rewrite IH | exact IH].
  - intros Hnot. induction l as [|a rest IH]; [reflexivity|].
    cbn [filter]. destruct (String.eqb_spec a urlToRemove) as [->|Hne].
    + exfalso. apply Hnot. now left.
    + cbn [negb]. rewrite IH; [reflexivity|].
      intros Hin. apply Hnot. now right.
Qed.

(** X14.  In single mode [handleCropAndUpload] revokes no object URL,
    and its outcome follows its three stages.  Without an image or a
    crop area it does nothing.  When the crop gives no blob, or the
    compression fails, nothing is uploaded, nothing is committed, the
    dialog keeps its image and the error toast is raised; when the
    upload fails, the same with the compressed file having been sent.
    When all three succeed, the compression's result is the one file
    sent, exactly the uploaded URL is committed, the dialog is closed
    and the success toast is raised. *)
Theorem handleCropAndUpload_outcome (c : Control)
  (Hsingle : multiple props = false) :
  let after :=
    handleCropAndUpload props imageCompression onUpload getCroppedImg c in
  urls (fst after) = urls c
  /\ (imageSrc c = None \/ croppedAreaPixels c = None -> after = (c, []))
  /\ forall src pixels,
       imageSrc c = Some src -> croppedAreaPixels c = Some pixels ->
       ((forall blob, getCroppedImg src pixels <> Fulfilled (Some blob)) ->
        cropRunFailed c after /\ uploads (snd after) = [])
       /\ forall blob,
            getCroppedImg src pixels = Fulfilled (Some blob) ->
            let croppedFile :=
              mkFile "cropped-image.jpg" "image/jpeg" (blobSize blob)
                     (blobBytes blob) in
            (forall e,
               compressImage imageCompression croppedFile
                 (compressionOptions props) = Rejected e ->
               cropRunFailed c after /\ uploads (snd after) = [])
            /\ forall result,
                 compressImage imageCompression croppedFile
                   (compressionOptions props) = Fulfilled result ->
                 (forall e,
                    onUpload (Compress.file result) = Rejected e ->
                    cropRunFailed c after
                    /\ uploads (snd after) = [Compress.file result])
                 /\ (forall uploadedUrl,
                       onUpload (Compress.file result)
                       = Fulfilled uploadedUrl ->
                       changes (snd after) = [VString uploadedUrl]
                       /\ uploads (snd after) = [Compress.file result]
                       /\ imageSrc (fst after) = None
                       /\ In (ToastSuccess "Gambar berhasil diupload")
                             (snd after)
                       /\ ~ In (ToastError "Gagal mengupload gambar")
                               (snd after)).
Proof.
  cbv zeta. unfold cropRunFailed, handleCropAndUpload. rewrite Hsingle.
  split; [|split].
  - destruct (imageSrc c) as [src|]; [|reflexivity].
    destruct (croppedAreaPixels c) as [pixels|]; [|reflexivity].
    destruct (getCroppedImg src pixels) as [[blob|]|e]; try reflexivity.
    destruct (compressImage imageCompression _ (compressionOptions props))
      as [result|e]; [|reflexivity].
    destruct (onUpload (Compress.file result)); reflexivity.
  - intros [Hnone|Hnone]; rewrite Hnone; [reflexivity|].
    now destruct (imageSrc c).
  - intros src pixels Hsrc Hpix. rewrite Hsrc, Hpix. split.
    + intros Hcrop.
      destruct (getCroppedImg src pixels) as [[blob|]|e];
        [now elim (Hcrop blob)| |];
        cbn; rewrite Hsrc; repeat split; right; left; reflexivity.
    + intros blob Hcrop. rewrite Hcrop. split.
      * intros e Hcomp. rewrite Hcomp.
        cbn. rewrite Hsrc. repeat split. right; left; reflexivity.
      * intros result Hcomp. rewrite Hcomp. split.
        -- intros e Hup. rewrite Hup. cbn. rewrite Hsrc.
           repeat split. do 3 right. left. reflexivity.
        -- intros uploadedUrl Hup. rewrite Hup. cbn.
           repeat split; [do 3 right; left; reflexivity|].
           intros [H|[H|[H|[H|[]]]]]; discriminate H.
Qed.

Lemma onDrop_uploads (acceptedFiles : list File) (c : Control) :
  multiple props = true ->
  uploads (snd (onDrop props imageCompression onUpload acceptedFiles c))
  = batchUploads props imageCompression acceptedFiles.
Proof.
  intros Hmultiple. unfold onDrop. rewrite Hmultiple.
  destruct acceptedFiles as [|f0 rest] eqn:Efiles; [reflexivity|].
  rewrite <- Efiles in *.
  fold (batchUploads props imageCompression acceptedFiles).
  destruct (all (map onUpload
                   (batchUploads props imageCompression acceptedFiles)));
    cbn [snd]; rewrite uploads_app, begun_uploads; cbn; apply app_nil_r.
Qed.

(** X15.  In multiple mode, when no output type is requested, one file
    is handed to [onUpload] for each accepted file, in order, and none
    of them is larger than the file it stands for, whether its
    compression succeeded, was skipped or failed. *)
Theorem batch_uploads_no_larger (acceptedFiles : list File) (c : Control)
  (Hmultiple : multiple props = true)
  (Hplain : Compress.fileType (compressionOptions props) = None) :
  Forall2 (fun f sent => fsize sent <= fsize f) acceptedFiles
    (uploads (snd (onDrop props imageCompression onUpload acceptedFiles c))).
Proof.
  rewrite (onDrop_uploads acceptedFiles c Hmultiple).
  unfold batchUploads. rewrite map_map.
  induction acceptedFiles as [|f rest IH]; cbn [map]; constructor;
    [|exact IH].
  unfold compressOrOriginal.
  destruct (compressImage imageCompression f (compressionOptions props))
    as [result|e] eqn:E; cbn [fst]; [|apply N.le_refl].
  exact (compressImage_no_larger imageCompression f _ result Hplain E).
Qed.

(** X16.  In multiple mode no drop creates an object URL or opens the
    crop dialog: over any sequence of batches the URL table and
    [imageSrc] stay as they were, so from a fresh mount
    [handleCropAndUpload] does nothing. *)
Theorem multiple_mode_allocates_nothing
  (batches : list (list File)) (c : Control)
  (Hmultiple : multiple props = true) :
  let c' :=
    fold_left
      (fun c files =>
         fst (onDrop props imageCompression onUpload files c))
      batches c in
  urls c' = urls c
  /\ imageSrc c' = imageSrc c
  /\ (imageSrc c = None ->
      handleCropAndUpload props imageCompression onUpload getCroppedImg c'
      = (c', [])).
Proof.
  cbv zeta.
  assert (G : forall c0,
    urls (fold_left
            (fun c files =>
               fst (onDrop props imageCompression onUpload files c))
            batches c0) = urls c0
    /\ imageSrc (fold_left
                   (fun c files =>
                      fst (onDrop props imageCompression onUpload files c))
                   batches c0) = imageSrc c0).
  { induction batches as [|files rest IH]; intros c0; cbn [fold_left];
      [split; reflexivity|].
    destruct (IH (fst (onDrop props imageCompression onUpload files c0)))
      as [Hu Hi].
    rewrite Hu, Hi. unfold onDrop. rewrite Hmultiple.
    destruct files as [|f0 files']; [split; reflexivity|].
    destruct (all _); split; reflexivity. }
  destruct (G c) as [Hu Hi]. repeat split; [exact Hu | exact Hi|].
  intros Hnone. unfold handleCropAndUpload. now rewrite Hi, Hnone.
Qed.

End ControlFurther.

(** A list that holds one URL twice. *)
Lemma handleRemove_drops_every_occurrence_witness :
  FileUploadControl.handleRemove threeUrls "https://cdn/a.jpg"
  = [FileUploadControl.ChangeMultiple ["https://cdn/b.jpg"]]
  /\ exists kept,
       FileUploadControl.handleRemove threeUrls "https://cdn/a.jpg"
       = [FileUploadControl.ChangeMultiple kept]
       /\ ~ In "https://cdn/a.jpg" kept
       /\ (forall u, u <> "https://cdn/a.jpg" ->
                     count_occ string_dec kept u
                     = count_occ string_dec
                         ["https://cdn/a.jpg"; "https://cdn/b.jpg";
                          "https://cdn/a.jpg"] u)
       /\ (~ In "https://cdn/a.jpg"
               ["https://cdn/a.jpg"; "https://cdn/b.jpg";
                "https://cdn/a.jpg"] ->
           kept = ["https://cdn/a.jpg"; "https://cdn/b.jpg";
                   "https://cdn/a.jpg"]).
Proof.
  split; [reflexivity|].
  exact (handleRemove_drops_every_occurrence threeUrls "https://cdn/a.jpg"
           ["https://cdn/a.jpg"; "https://cdn/b.jpg"; "https://cdn/a.jpg"]
           eq_refl eq_refl).
Defined.

(** The spec's single-mode scenario: crop, compress, upload. *)
Lemma handleCropAndUpload_outcome_witness :
  let after :=
    FileUploadControl.handleCropAndUpload singleMode halving storing
      croppedTo cropping in
  FileUploadControl.changes (snd after)
  = [FileUploadControl.VString "https://cdn/cropped-image.jpg"]
  /\ FileUploadControl.uploads (snd after)
     = [mkFile "cropped-image.jpg" "image/jpeg" 1024 131]
  /\ FileUploadControl.imageSrc (fst after) = None
  /\ FileUploadControl.urls (fst after) = mkURLs 1 [0] 0.
Proof.
  pose proof (handleCropAndUpload_outcome singleMode halving storing
                croppedTo cropping eq_refl) as [Hurls [_ Hstages]].
  destruct (Hstages 0 (FileUploadControl.mkArea 0 0 100 100)
              eq_refl eq_refl) as [_ Hcropped].
  destruct (Hcropped (FileUploadControl.mkBlob 2048 31) eq_refl)
    as [_ Hcompressed].
  destruct (Hcompressed
              (Compress.mkResult
                 (mkFile "cropped-image.jpg" "image/jpeg" 1024 131)
                 2048 1024 (Compress.RatioOf 1024 2048) false)
              eq_refl) as [_ Huploaded].
  destruct (Huploaded "https://cdn/cropped-image.jpg" eq_refl)
    as [Hchanges [Huploads [Hclosed _]]].
  repeat split; assumption.
Defined.

(** Two files of which the encoder can shrink neither. *)
Lemma batch_uploads_no_larger_witness :
  Forall2 (fun f sent => fsize sent <= fsize f) [file1; file2]
    (FileUploadControl.uploads
       (snd (FileUploadControl.onDrop multipleMode failing storing
               [file1; file2] FileUploadControl.mount))).
Proof.
  exact (batch_uploads_no_larger multipleMode failing storing
           [file1; file2] FileUploadControl.mount eq_refl eq_refl).
Defined.

Lemma multiple_mode_allocates_nothing_witness :
  let c' :=
    fold_left
      (fun c files =>
         fst (FileUploadControl.onDrop multipleMode halving storing files c))
      [[file1; file2]; [file1]] FileUploadControl.mount in
  FileUploadControl.urls c' = noURLs
  /\ FileUploadControl.imageSrc c' = None.
Proof.
  destruct (multiple_mode_allocates_nothing multipleMode halving storing
              croppedTo [[file1; file2]; [file1]] FileUploadControl.mount
              eq_refl) as [Hu [Hi _]].
  split; [exact Hu | exact Hi].
Defined.

(** * Properties of the editor's upload *)

Section EditorUploads.

Import EditorUpload.

Variable imageCompression : File -> Compress.EncoderOptions -> Settled File.
Variable fetch : File -> Settled Response.
Variable elapsed : string.

(** X17.  Every run of [uploadFile] raises exactly one toast: a success
    toast and no error toast when it fulfils, an error toast and no
    success toast when it rejects. *)
Theorem uploadFile_one_toast (f : File) :
  let after := uploadFile imageCompression fetch elapsed f in
  match fst after with
  | Fulfilled _ =>
      successToasts (snd after) = 1%nat /\ errorToasts (snd after) = 0%nat
  | Rejected _ =>
      successToasts (snd after) = 0%nat /\ errorToasts (snd after) = 1%nat
  end.
Proof.
  cbv zeta. unfold uploadFile, rethrown.
  destruct (Compress.isImageFile f); cbn [negb]; [|split; reflexivity].
  destruct (1024 * 1024 <? fsize f);
    [destruct (Compress.compressImage imageCompression f uploadOptions)
       as [result|e]; [|split; reflexivity]|];
    (match goal with
     | |- context [fetch ?x] => destruct (fetch x) as [response|e]
     end; [|split; reflexivity]);
    (destruct (json response) as [reply|e]; [|split; reflexivity]);
    destruct (negb (ok response) || negb (success reply));
    split; reflexivity.
Qed.

(** X18.  [uploadFile] sends at most one request.  A file that is not an
    image, and a file above 1 MiB whose compression fails, never reach
    the network: the promise rejects and no request is sent; there is no
    fallback to the uncompressed file. *)
Theorem uploadFile_network_guard (f : File) :
  let after := uploadFile imageCompression fetch elapsed f in
  (List.length (fetched (snd after)) <= 1)%nat
  /\ (Compress.isImageFile f = false ->
      fetched (snd after) = []
      /\ fst after
         = Rejected
             (ErrorObject "File harus berupa gambar (JPEG, PNG, WebP, GIF)"))
  /\ (forall thrown,
        1024 * 1024 < fsize f ->
        Compress.compressImage imageCompression f uploadOptions
        = Rejected thrown ->
        fetched (snd after) = []
        /\ exists e, fst after = Rejected e).
Proof.
  cbv zeta. unfold uploadFile, rethrown. split; [|split].
  - destruct (Compress.isImageFile f); cbn [negb]; [|cbn; lia].
    destruct (1024 * 1024 <? fsize f);
      [destruct (Compress.compressImage imageCompression f uploadOptions)
         as [result|e]; [|cbn; lia]|];
      (match goal with
       | |- context [fetch ?x] => destruct (fetch x) as [response|e]
       end; [|cbn; lia]);
      (destruct (json response) as [reply|e]; [|cbn; lia]);
      destruct (negb (ok response) || negb (success reply)); cbn; lia.
  - intros ->. split; reflexivity.
  - intros thrown Hbig Hfail.
    destruct (Compress.isImageFile f); cbn [negb];
      [|split; [reflexivity | eexists; reflexivity]].
    apply N.ltb_lt in Hbig. rewrite Hbig, Hfail.
    split; [reflexivity | eexists; reflexivity].
Qed.

(** X19.  The file [uploadFile] sends is never larger than the one it
    was given.  A file of at most 1 MiB is sent as it is, whatever the
    encoder would do with it. *)
Theorem uploadFile_sends_no_larger (f : File) :
  let after := uploadFile imageCompression fetch elapsed f in
  (forall sent, In sent (fetched (snd after)) -> fsize sent <= fsize f)
  /\ (fsize f <= 1024 * 1024 ->
      forall sent, In sent (fetched (snd after)) -> sent = f).
Proof.
  cbv zeta. unfold uploadFile, rethrown. split.
  - intros sent.
    destruct (Compress.isImageFile f); cbn [negb]; [|intros []].
    destruct (1024 * 1024 <? fsize f).
    + destruct (Compress.compressImage imageCompression f uploadOptions)
        as [result|e] eqn:E; [|intros []].
      pose proof (compressImage_no_larger imageCompression f uploadOptions
                    result eq_refl E) as Hle.
      destruct (fetch (Compress.file result)) as [response|e];
        [|cbn; intros [<-|[]]; exact Hle].
      destruct (json response) as [reply|e];
        [|cbn; intros [<-|[]]; exact Hle].
      destruct (negb (ok response) || negb (success reply));
        cbn; intros [<-|[]]; exact Hle.
    + destruct (fetch f) as [response|e];
        [|cbn; intros [<-|[]]; apply N.le_refl].
      destruct (json response) as [reply|e];
        [|cbn; intros [<-|[]]; apply N.le_refl].
      destruct (negb (ok response) || negb (success reply));
        cbn; intros [<-|[]]; apply N.le_refl.
  - intros Hsmall sent.
    destruct (Compress.isImageFile f); cbn [negb]; [|intros []].
    apply N.ltb_ge in Hsmall. rewrite Hsmall.
    destruct (fetch f) as [response|e]; [|cbn; intros [<-|[]]; reflexivity].
    destruct (json response) as [reply|e];
      [|cbn; intros [<-|[]]; reflexivity].
    destruct (negb (ok response) || negb (success reply));
      cbn; intros [<-|[]]; reflexivity.
Qed.

(** X20.  [uploadFile] fulfils only with the [url] of a reply that came
    with [response.ok] and [success] both true, to a request that
    carried an image; when the endpoint refuses, the rejection carries
    the reply's [error], or [Upload gagal] when that is missing or
    empty. *)
Theorem uploadFile_fulfils_only_on_success (f : File) :
  let after := uploadFile imageCompression fetch elapsed f in
  (forall uploadedUrl,
     fst after = Fulfilled uploadedUrl ->
     Compress.isImageFile f = true
     /\ exists sent response reply,
          fetched (snd after) = [sent]
          /\ fetch sent = Fulfilled response
          /\ json response = Fulfilled reply
          /\ ok response = true
          /\ success reply = true
          /\ uploadedUrl = url reply)
  /\ (forall response reply,
        Compress.isImageFile f = true ->
        fsize f <= 1024 * 1024 ->
        fetch f = Fulfilled response ->
        json response = Fulfilled reply ->
        ok response = false \/ success reply = false ->
        fst after = Rejected (ErrorObject (replyMessage reply))).
Proof.
  cbv zeta. unfold uploadFile, rethrown. split.
  - intros uploadedUrl.
    destruct (Compress.isImageFile f); cbn [negb fst];
      [|discriminate].
    destruct (1024 * 1024 <? fsize f);
      [destruct (Compress.compressImage imageCompression f uploadOptions)
         as [result|e]; [|discriminate]|];
      (match goal with
       | |- context [fetch ?x] =>
           destruct (fetch x) as [response|e] eqn:Efetch
       end; [|discriminate]);
      (destruct (json response) as [reply|e] eqn:Ejson; [|discriminate]);
      destruct (ok response) eqn:Eok; destruct (success reply) eqn:Esucc;
      cbn [negb orb fst snd]; try discriminate;
      intros H; injection H as <-; (split; [reflexivity|]);
      eexists _, response, reply; repeat split; eassumption.
  - intros response reply Himg Hsmall Hfetch Hjson Hrefused.
    rewrite Himg. cbn [negb]. apply N.ltb_ge in Hsmall.
    rewrite Hsmall, Hfetch, Hjson.
    destruct Hrefused as [-> | ->]; cbn [negb orb];
      [reflexivity | now rewrite orb_true_r].
Qed.

End EditorUploads.

(** A 3 MiB image whose compression fails. *)
Lemma uploadFile_network_guard_witness :
  EditorUpload.fetched
    (snd (EditorUpload.uploadFile failing accepting "0.4" jpg3MB)) = []
  /\ exists e,
       fst (EditorUpload.uploadFile failing accepting "0.4" jpg3MB)
       = Rejected e.
Proof.
  exact (proj2 (proj2 (uploadFile_network_guard failing accepting "0.4"
                         jpg3MB))
           (ErrorObject "Image compression failed: decode failed")
           eq_refl eq_refl).
Defined.

(** A small image against an encoder that would halve it. *)
Lemma uploadFile_sends_no_larger_witness :
  EditorUpload.fetched
    (snd (EditorUpload.uploadFile halving accepting "0.4" file1)) = [file1]
  /\ fsize file1 <= fsize file1.
Proof.
  split; [reflexivity|].
  apply (proj1 (uploadFile_sends_no_larger halving accepting "0.4" file1)).
  left. reflexivity.
Defined.

(** An endpoint that answers 4xx with an empty [error]. *)
Lemma uploadFile_fulfils_only_on_success_witness :
  fst (EditorUpload.uploadFile halving refusing "0.4" file1)
  = Rejected (ErrorObject "Upload gagal").
Proof.
  apply (proj2 (uploadFile_fulfils_only_on_success halving refusing "0.4"
                  file1)
           (EditorUpload.mkResponse false
              (Fulfilled (EditorUpload.mkReply false (Some "") "")))
           (EditorUpload.mkReply false (Some "") ""));
    try reflexivity.
  - vm_compute. discriminate.
  - now left.
Defined.

(** * Properties of the debounce hooks *)

Section Debouncing.

Import Debounce.

Variable Args : Type.
Variable Callback : Type.

Lemma clearTimeout_single (id : N) (args : Args) (next : N) :
  clearTimeout id (mkTimers next [(id, args)]) = mkTimers next [].
Proof. unfold clearTimeout. cbn. now rewrite N.eqb_refl. Qed.

Lemma due_single (id id' : N) (args args' : Args) :
  due id' [(id, args)] = Some args' -> id' = id /\ args' = args.
Proof.
  cbn. destruct (N.eqb_spec id id') as [->|_]; [|discriminate].
  intros H. now injection H as <-.
Qed.

(** What the ref points to is the only thing that can be armed, so
    clearing it leaves nothing armed. *)
Lemma oneTimer_cleared (h : Cancellable Args Callback) :
  OneTimer h ->
  armed (match timeoutRef h with
         | Some id => clearTimeout id (timers h)
         | None => timers h
         end) = [].
Proof.
  intros [Hnone | [id [args [Harmed [Href _]]]]].
  - destruct (timeoutRef h); [|exact Hnone].
    unfold clearTimeout. cbn. now rewrite Hnone.
  - rewrite Href. unfold clearTimeout. cbn. rewrite Harmed. cbn.
    now rewrite N.eqb_refl.
Qed.

Lemma oneTimer_step (h : Cancellable Args Callback)
  (e : Event Args Callback) :
  OneTimer h -> OneTimer (step h e).
Proof.
  intros Inv. pose proof (oneTimer_cleared h Inv) as Hcleared.
  destruct e as [cb|args|id| |args|]; cbn [step].
  - exact Inv.
  - unfold debouncedCallback, setTimeout. right.
    exists (nextId (match timeoutRef h with
                    | Some id => clearTimeout id (timers h)
                    | None => timers h
                    end)), args.
    cbn. rewrite Hcleared. repeat split.
  - unfold fire.
    destruct (due id (armed (timers h))) as [args|] eqn:Edue; [|exact Inv].
    left. destruct Inv as [Hnone | [id0 [args0 [Harmed _]]]].
    + rewrite Hnone in Edue. discriminate Edue.
    + rewrite Harmed in Edue. apply due_single in Edue as [-> _].
      unfold clearTimeout. cbn. rewrite Harmed. cbn.
      now rewrite N.eqb_refl.
  - left. unfold cancel.
    destruct (timeoutRef h); cbn [timers]; exact Hcleared.
  - left. unfold flush, cancel.
    destruct (timeoutRef h); cbn [timers]; exact Hcleared.
  - left. unfold unmountCancellable.
    destruct (timeoutRef h) eqn:E; cbn [timers]; exact Hcleared.
Qed.

Lemma oneTimer_run (es : list (Event Args Callback)) :
  forall h, OneTimer h -> OneTimer (run h es).
Proof.
  induction es as [|e es IH]; intros h Inv; cbn [run fold_left];
    [exact Inv|].
  apply IH. now apply oneTimer_step.
Qed.

(** X21.  Whatever is done with an instance of
    [useDebouncedCallbackWithCancel], calls, renders, timers going off,
    [cancel], [flush], unmount, in any order, at most one of its timers
    is armed, and that timer is the one [timeoutRef] holds. *)
Theorem debounce_single_timer (callback : Callback)
  (es : list (Event Args Callback)) :
  let h := run (mountCancellable callback) es in
  (List.length (armed (timers h)) <= 1)%nat
  /\ forall id args,
       In (id, args) (armed (timers h)) -> timeoutRef h = Some id.
Proof.
  intros h.
  assert (Inv : OneTimer h).
  { apply oneTimer_run. now left. }
  destruct Inv as [Hnone | [id0 [args0 [Harmed [Href Hargs]]]]].
  - rewrite Hnone. split; [cbn; lia | intros id args []].
  - rewrite Harmed. split; [cbn; lia|].
    intros id args [E|[]]. injection E as <- <-. exact Href.
Qed.

Lemma last_cons {A} (l : list A) :
  forall a d : A, last (a :: l) d = last l a.
Proof.
  induction l as [|b l IH]; intros a d; [reflexivity|].
  change (last (a :: b :: l) d) with (last (b :: l) d).
  now rewrite !IH.
Qed.

Lemma burst_armed (rest : list Args) :
  forall (h : Cancellable Args Callback) (args : Args),
    OneTimer h ->
    invoked (run h (map Call (args :: rest))) = invoked h
    /\ callbackRef (run h (map Call (args :: rest))) = callbackRef h
    /\ exists id,
         armed (timers (run h (map Call (args :: rest))))
         = [(id, last rest args)].
Proof.
  induction rest as [|next rest IH]; intros h args Inv.
  - cbn [map run fold_left step last].
    pose proof (oneTimer_cleared h Inv) as Hcleared.
    unfold debouncedCallback, setTimeout. cbn. rewrite Hcleared.
    repeat split. eexists. reflexivity.
  - destruct (IH (step h (Call args)) next
                (oneTimer_step h (Call args) Inv)) as [Hi [Hc [id Ha]]].
    change (run h (map Call (args :: next :: rest)))
      with (run (step h (Call args)) (map Call (next :: rest))).
    rewrite Hi, Hc, Ha, last_cons.
    repeat split. now exists id.
Qed.

(** X22.  After any history, a burst of calls invokes nothing while it
    lasts and leaves one timer armed; when that timer goes off the
    callback is invoked once, with the arguments of the last call of the
    burst, and any other timer id going off does nothing. *)
Theorem debounce_burst_delivers_last (callback : Callback)
  (es : list (Event Args Callback)) (args : Args) (rest : list Args) :
  let h := run (mountCancellable callback) es in
  let h' := run h (map Call (args :: rest)) in
  invoked h' = invoked h
  /\ exists id,
       armed (timers h') = [(id, last rest args)]
       /\ invoked (step h' (Fire id))
          = (invoked h ++ [(callbackRef h, last rest args)])%list
       /\ armed (timers (step h' (Fire id))) = []
       /\ forall other, other <> id -> step h' (Fire other) = h'.
Proof.
  intros h h'.
  assert (Inv : OneTimer h) by (apply oneTimer_run; now left).
  destruct (burst_armed rest h args Inv) as [Hi [Hc [id Ha]]].
  fold h' in Hi, Hc, Ha. split; [exact Hi|].
  exists id. split; [exact Ha|].
  cbn [step]. unfold fire. rewrite Ha. cbn [due]. rewrite N.eqb_refl.
  cbn [invoked timers]. rewrite Hi, Hc. split; [reflexivity|]. split.
  - unfold clearTimeout. rewrite Ha. cbn. now rewrite N.eqb_refl.
  - intros other Hother. cbn [due].
    destruct (N.eqb_spec id other) as [E|_]; [congruence | reflexivity].
Qed.

Lemma quiet_when_disarmed (ids : list N) :
  forall h : Cancellable Args Callback,
    armed (timers h) = [] -> run h (map Fire ids) = h.
Proof.
  induction ids as [|id ids IH]; intros h Hnone; cbn [map run fold_left];
    [reflexivity|].
  assert (E : step h (Fire id) = h).
  { cbn [step]. unfold fire. now rewrite Hnone. }
  rewrite E. now apply IH.
Qed.

(** X23.  After [cancel], and after unmount, nothing is armed: whatever
    timer ids go off afterwards, the callback is not invoked.  [flush]
    invokes the callback at once, exactly once and with its own
    arguments, and likewise leaves nothing armed, so the pending call is
    not delivered a second time. *)
Theorem debounce_cancel_flush_unmount (callback : Callback)
  (es : list (Event Args Callback)) (ids : list N) (args : Args) :
  let h := run (mountCancellable callback) es in
  run (step h Cancel) (map Fire ids) = step h Cancel
  /\ invoked (step h Cancel) = invoked h
  /\ run (step h Unmount) (map Fire ids) = step h Unmount
  /\ invoked (step h Unmount) = invoked h
  /\ run (step h (Flush args)) (map Fire ids) = step h (Flush args)
  /\ invoked (step h (Flush args))
     = (invoked h ++ [(callbackRef h, args)])%list.
Proof.
  intros h.
  assert (Inv : OneTimer h) by (apply oneTimer_run; now left).
  pose proof (oneTimer_cleared h Inv) as Hcleared.
  assert (Hc : armed (timers (step h Cancel)) = []).
  { cbn [step]. unfold cancel.
    destruct (timeoutRef h); cbn [timers]; exact Hcleared. }
  assert (Hu : armed (timers (step h Unmount)) = []).
  { cbn [step]. unfold unmountCancellable.
    destruct (timeoutRef h) eqn:E; cbn [timers]; exact Hcleared. }
  assert (Hf : armed (timers (step h (Flush args))) = []).
  { cbn [step]. unfold flush, cancel.
    destruct (timeoutRef h); cbn [timers]; exact Hcleared. }
  repeat split; try (now apply quiet_when_disarmed).
  - cbn [step]. unfold cancel. now destruct (timeoutRef h).
  - cbn [step]. unfold unmountCancellable. now destruct (timeoutRef h).
  - cbn [step]. unfold flush, cancel. now destruct (timeoutRef h).
Qed.

Lemma plain_step_agrees (p : Plain Args Callback)
  (h : Cancellable Args Callback) (e : Event Args Callback) :
  plainEvent e = true ->
  plainTimeoutRef p = timeoutRef h /\ plainCallbackRef p = callbackRef h
  /\ plainTimers p = timers h /\ plainInvoked p = invoked h ->
  plainTimeoutRef (stepPlain p e) = timeoutRef (step h e)
  /\ plainCallbackRef (stepPlain p e) = callbackRef (step h e)
  /\ plainTimers (stepPlain p e) = timers (step h e)
  /\ plainInvoked (stepPlain p e) = invoked (step h e).
Proof.
  destruct p as [pr pc pt pi], h as [hr hc ha ht hi].
  cbn [plainTimeoutRef plainCallbackRef plainTimers plainInvoked
       timeoutRef callbackRef timers invoked].
  intros He [-> [-> [-> ->]]].
  destruct e as [cb|args|id| |args|]; try discriminate He;
    cbn [stepPlain step].
  - repeat split.
  - unfold debouncedCallback, setTimeout. cbn.
    destruct hr; repeat split.
  - unfold fire. cbn. destruct (due id (armed ht)); repeat split.
  - unfold unmountCancellable. cbn. destruct hr; repeat split.
Qed.

(** X24.  On histories without [cancel] and [flush],
    [useDebouncedCallback] invokes the same callbacks with the same
    arguments in the same order as [useDebouncedCallbackWithCancel], and
    has the same timers armed. *)
Theorem plain_agrees_with_cancellable (callback : Callback)
  (es : list (Event Args Callback))
  (Hplain : forallb plainEvent es = true) :
  plainInvoked (runPlain (mountPlain callback) es)
  = invoked (run (mountCancellable callback) es)
  /\ plainTimers (runPlain (mountPlain callback) es)
     = timers (run (mountCancellable callback) es).
Proof.
  assert (G : forall (p : Plain Args Callback) (h : Cancellable Args Callback),
    plainTimeoutRef p = timeoutRef h /\ plainCallbackRef p = callbackRef h
    /\ plainTimers p = timers h /\ plainInvoked p = invoked h ->
    plainInvoked (runPlain p es) = invoked (run h es)
    /\ plainTimers (runPlain p es) = timers (run h es)).
  { induction es as [|e rest IH]; intros p h Hsim;
      cbn [runPlain run fold_left].
    - destruct Hsim as [_ [_ [Ht Hi]]]. now split.
    - cbn [forallb] in Hplain.
      apply andb_true_iff in Hplain as [He Hrest].
      apply (IH Hrest). now apply plain_step_agrees. }
  apply G. repeat split.
Qed.

End Debouncing.

Section DebouncedValue.

Import Debounce.

Variable T : Type.

Lemma oneValueTimer_cleanup (h : Debounced T) :
  OneValueTimer h ->
  armed (valueTimers (cleanup h)) = [] /\
  debouncedValue (cleanup h) = debouncedValue h.
Proof.
  unfold cleanup.
  intros [Hnone | [id [value [Harmed Href]]]].
  - destruct (timer h); [|now split].
    cbn. unfold clearTimeout. rewrite Hnone. now split.
  - rewrite Href. cbn. rewrite Harmed. cbn. rewrite N.eqb_refl.
    now split.
Qed.

Lemma oneValueTimer_step (h : Debounced T) (e : ValueEvent T) :
  OneValueTimer h -> OneValueTimer (stepValue h e).
Proof.
  intros Inv. destruct (oneValueTimer_cleanup h Inv) as [Hclean _].
  destruct e as [value|id|]; cbn [stepValue].
  - right. unfold setTimeout.
    exists (nextId (valueTimers (cleanup h))), value.
    cbn. rewrite Hclean. now split.
  - destruct (due id (armed (valueTimers h))) as [value|] eqn:Edue;
      [|exact Inv].
    left. destruct Inv as [Hnone | [id0 [v0 [Harmed _]]]].
    + rewrite Hnone in Edue. discriminate Edue.
    + rewrite Harmed in Edue. apply due_single in Edue as [-> _].
      unfold clearTimeout. cbn. rewrite Harmed. cbn.
      now rewrite N.eqb_refl.
  - now left.
Qed.

Lemma oneValueTimer_run (es : list (ValueEvent T)) :
  forall h, OneValueTimer h -> OneValueTimer (runValue h es).
Proof.
  induction es as [|e es IH]; intros h Inv; cbn [runValue fold_left];
    [exact Inv|].
  apply IH. now apply oneValueTimer_step.
Qed.

Lemma oneValueTimer_mount (value : T) : OneValueTimer (mountValue value).
Proof. right. exists 1, value. now split. Qed.

Lemma value_burst (rest : list T) :
  forall (h : Debounced T) (value : T),
    OneValueTimer h ->
    debouncedValue (runValue h (map Change (value :: rest)))
    = debouncedValue h
    /\ exists id,
         armed (valueTimers (runValue h (map Change (value :: rest))))
         = [(id, last rest value)].
Proof.
  induction rest as [|next rest IH]; intros h value Inv.
  - cbn [map runValue fold_left stepValue last].
    destruct (oneValueTimer_cleanup h Inv) as [Hclean Hsame].
    unfold setTimeout. cbn. rewrite Hclean, Hsame.
    split; [reflexivity | eexists; reflexivity].
  - destruct (IH (stepValue h (Change value)) next
                (oneValueTimer_step h (Change value) Inv)) as [Hv [id Ha]].
    change (runValue h (map Change (value :: next :: rest)))
      with (runValue (stepValue h (Change value))
              (map Change (next :: rest))).
    rewrite Hv, Ha, last_cons. split.
    + cbn [stepValue]. unfold setTimeout. cbn.
      apply (oneValueTimer_cleanup h Inv).
    + now exists id.
Qed.

(** X25.  With [useDebounce], while the value keeps changing the
    debounced value stays what it was; one timer is armed, and when it
    goes off the debounced value becomes the last value of the burst,
    the values in between are never shown.  After unmount no timer is
    armed. *)
Theorem useDebounce_shows_last (initial : T) (es : list (ValueEvent T))
  (value : T) (rest : list T) :
  let h := runValue (mountValue initial) es in
  let h' := runValue h (map Change (value :: rest)) in
  debouncedValue h' = debouncedValue h
  /\ (exists id,
        armed (valueTimers h') = [(id, last rest value)]
        /\ debouncedValue (stepValue h' (Elapse id)) = last rest value
        /\ forall other, other <> id -> stepValue h' (Elapse other) = h')
  /\ armed (valueTimers (stepValue h' Leave)) = [].
Proof.
  intros h h'.
  assert (Inv : OneValueTimer h).
  { apply oneValueTimer_run, oneValueTimer_mount. }
  destruct (value_burst rest h value Inv) as [Hv [id Ha]].
  fold h' in Hv, Ha. split; [exact Hv|]. split.
  - exists id. split; [exact Ha|].
    cbn [stepValue]. rewrite Ha. cbn [due]. rewrite N.eqb_refl.
    split; [reflexivity|].
    intros other Hother.
    destruct (N.eqb_spec id other) as [E|_]; [congruence | reflexivity].
  - cbn [stepValue].
    apply oneValueTimer_cleanup.
    apply oneValueTimer_run. exact Inv.
Qed.

End DebouncedValue.

(** Three calls, a render with a new callback, the last timer going
    off, and unmount. *)
Lemma plain_agrees_with_cancellable_witness :
  Debounce.plainInvoked
    (Debounce.runPlain (Debounce.mountPlain 7)
       [Debounce.Call "a"; Debounce.Call "ab"; Debounce.Call "abc";
        Debounce.Render 8; Debounce.Fire 3; Debounce.Unmount])
  = Debounce.invoked
      (Debounce.run (Debounce.mountCancellable 7)
         [Debounce.Call "a"; Debounce.Call "ab"; Debounce.Call "abc";
          Debounce.Render 8; Debounce.Fire 3; Debounce.Unmount])
  /\ Debounce.invoked
       (Debounce.run (Debounce.mountCancellable 7)
          [Debounce.Call "a"; Debounce.Call "ab"; Debounce.Call "abc";
           Debounce.Render 8; Debounce.Fire 3; Debounce.Unmount])
     = [(8, "abc")].
Proof.
  split.
  - exact (proj1 (plain_agrees_with_cancellable string N 7
                    [Debounce.Call "a"; Debounce.Call "ab";
                     Debounce.Call "abc"; Debounce.Render 8;
                     Debounce.Fire 3; Debounce.Unmount] eq_refl)).
  - reflexivity.
Defined.
